(** * The generations endpoint of the public API

    A shallow embedding of [src/pages/api/public/generations.ts]: the two
    zod schemas, the request handler with its POST branch and its PATCH
    branch, and the objects the handler hands to the access-scope check and
    to the persistence client.

    JavaScript values are untyped here as they are at run time: every object
    literal of the source is written as an association list of keys and
    values, in the order of the source. *)

From Stdlib Require Import List String Ascii ZArith Bool Lia.
From Stdlib Require Import PrimFloat.
Import ListNotations.
Open Scope string_scope.
Open Scope Z_scope.

Set Implicit Arguments.
Set Warnings "-register-all".

(** ** JavaScript values *)

Module JS.

(** Numbers are IEEE 754 doubles, as in JavaScript: fractions, the two
    zeros, the infinities and NaN.  [VDate s] is the object [new Date(s)]. *)
Inductive value : Type :=
| VUndefined
| VNull
| VBool (b : bool)
| VNum (n : float)
| VStr (s : string)
| VDate (iso : string)
| VArr (items : list value)
| VObj (entries : list (string * value)).

Definition object := list (string * value).

(** [v ? a : b], [!v], [if (v)]: of the numbers, the two zeros and NaN are
    falsy. *)
Definition truthy (v : value) : bool :=
  match v with
  | VUndefined | VNull => false
  | VBool b => b
  | VNum n => negb (PrimFloat.eqb n 0 || PrimFloat.is_nan n)
  | VStr s => negb (s =? "")%string
  | VDate _ | VArr _ | VObj _ => true
  end.

(** [v === null || v === undefined] *)
Definition nullish (v : value) : bool :=
  match v with
  | VUndefined | VNull => true
  | _ => false
  end.

(** [a ?? b] *)
Definition coalesce (a b : value) : value := if nullish a then b else a.

(** [a || b] *)
Definition or (a b : value) : value := if truthy a then a else b.

(** [a && b] *)
Definition and (a b : value) : value := if truthy a then b else a.

(** [!a] *)
Definition not (a : value) : value := VBool (negb (truthy a)).

(** [a + b] on numbers: the sum of two doubles, rounded to the nearest
    double.  The handler adds only values that passed [z.number()] or the
    literal 0; on other operands (where JavaScript concatenates strings or
    converts) the model gives [VUndefined]. *)
Definition add (a b : value) : value :=
  match a, b with
  | VNum x, VNum y => VNum (PrimFloat.add x y)
  | _, _ => VUndefined
  end.

(** Own-property lookup in an object literal: the first entry with the key. *)
Fixpoint lookup (k : string) (o : object) : option value :=
  match o with
  | [] => None
  | (k', v) :: r => if (k =? k')%string then Some v else lookup k r
  end.

(** [Object.keys(o)] *)
Definition keys (o : object) : list string := map fst o.

(** [k in o] *)
Definition has_key (k : string) (o : object) : bool :=
  match lookup k o with Some _ => true | None => false end.

(** [v.k] : property access; a missing property reads as [undefined]. *)
Definition get (v : value) (k : string) : value :=
  match v with
  | VObj o => match lookup k o with Some x => x | None => VUndefined end
  | _ => VUndefined
  end.

(** Assignment [o[k] = v]: an existing key keeps its position, a new key is
    appended. *)
Fixpoint set (k : string) (v : value) (o : object) : object :=
  match o with
  | [] => [(k, v)]
  | (k', v') :: r =>
      if (k =? k')%string then (k, v) :: r else (k', v') :: set k v r
  end.

(** [{ ...a, ...b }] and [Object.fromEntries(b)] on top of [a]: the entries
    of [b] are assigned in order. *)
Definition assign (a b : object) : object :=
  fold_left (fun acc kv => set (fst kv) (snd kv) acc) b a.

(** [...v] inside an object literal: the own entries of an object, nothing
    for [undefined], [null] and primitives. *)
Definition spread (v : value) : object :=
  match v with
  | VObj o => o
  | _ => []
  end.

(** [Object.entries(v)] *)
Definition entries (v : value) : object := spread v.

(** The rest pattern [const { k1, ..., kn, ...rest } = v]. *)
Definition rest (taken : list string) (v : value) : value :=
  VObj (filter (fun kv => negb (existsb (String.eqb (fst kv)) taken))
               (entries v)).

(** [new Date(v)] of a string; the handler builds dates only from strings
    that passed [z.string().datetime()]. *)
Definition newDate (v : value) : value :=
  match v with
  | VStr x => VDate x
  | _ => VUndefined
  end.

(** What a client library that serialises the object sees: a key is part of
    the object when it is there with a value other than [undefined]. *)
Definition carries (v : value) (k : string) : bool :=
  match get v k with VUndefined => false | _ => true end.

End JS.

Import JS.

(** ** The part of zod the two schemas use *)

Module Zod.

Inductive schema : Type :=
| ZString                                   (* z.string() *)
| ZDatetime                                 (* z.string().datetime() *)
| ZNumber                                   (* z.number() *)
| ZBoolean                                  (* z.boolean() *)
| ZUnknown                                  (* z.unknown() *)
| ZNativeEnum (members : list string)       (* z.nativeEnum(E) *)
| ZNullish (inner : schema)                 (* s.nullish() *)
| ZUnion (options : list schema)            (* z.union([...]) *)
| ZRecord (valueType : schema)              (* z.record(z.string(), s) *)
| ZObject (shape : list (string * schema)). (* z.object({...}) *)

(** The keys a shape declares. *)
Definition declared (shape : list (string * schema)) : list string :=
  map fst shape.

(** The entries of an object other than those under the key [__proto__]. *)
Definition kept (es : object) : object :=
  filter (fun kv => negb (fst kv =? "__proto__")%string) es.

Definition is_digit (c : ascii) : bool :=
  let n := nat_of_ascii c in (48 <=? n)%nat && (n <=? 57)%nat.

Fixpoint digits (n : nat) (l : list ascii) : option (list ascii) :=
  match n with
  | O => Some l
  | S n' =>
      match l with
      | c :: r => if is_digit c then digits n' r else None
      | [] => None
      end
  end.

Definition char (c : ascii) (l : list ascii) : option (list ascii) :=
  match l with
  | c' :: r => if Ascii.eqb c c' then Some r else None
  | [] => None
  end.

Fixpoint skip_digits (l : list ascii) : list ascii :=
  match l with
  | c :: r => if is_digit c then skip_digits r else l
  | [] => []
  end.

(** [(\.\d+)?Z$] *)
Definition fraction_and_zone (l : list ascii) : bool :=
  match l with
  | ["Z"%char] => true
  | "."%char :: d :: r =>
      is_digit d &&
      match skip_digits r with ["Z"%char] => true | _ => false end
  | _ => false
  end.

Definition andThen {A B} (o : option A) (f : A -> option B) : option B :=
  match o with Some a => f a | None => None end.

(** The default pattern of [.datetime()]:
    [^\d{4}-\d{2}-\d{2}T\d{2}:\d{2}:\d{2}(\.\d+)?Z$] *)
Definition isDatetime (s : string) : bool :=
  match
    andThen (digits 4 (list_ascii_of_string s)) (fun l =>
    andThen (char "-" l) (fun l =>
    andThen (digits 2 l) (fun l =>
    andThen (char "-" l) (fun l =>
    andThen (digits 2 l) (fun l =>
    andThen (char "T" l) (fun l =>
    andThen (digits 2 l) (fun l =>
    andThen (char ":" l) (fun l =>
    andThen (digits 2 l) (fun l =>
    andThen (char ":" l) (fun l =>
    digits 2 l))))))))))
  with
  | Some l => fraction_and_zone l
  | None => false
  end.

Section Members.

Variable parse : schema -> value -> option value.

(** A union takes the first option that accepts the input. *)
Fixpoint parse_union (options : list schema) (v : value) : option value :=
  match options with
  | [] => None
  | o :: r =>
      match parse o v with
      | Some x => Some x
      | None => parse_union r v
      end
  end.

(** A record parses every entry's value and assigns the parsed values to
    a fresh object under their keys.  The value under the key [__proto__] is
    parsed like the others, but the assignment to that key leaves no own
    key: the output has the entries of [kept]. *)
Fixpoint parse_record (valueType : schema) (es : object) : option object :=
  match es with
  | [] => Some []
  | (k, x) :: r =>
      match parse valueType x, parse_record valueType r with
      | Some y, Some r' =>
          Some (if (k =? "__proto__")%string then r' else (k, y) :: r')
      | _, _ => None
      end
  end.

(** An object is parsed key by key of its shape; keys of the input that
    the shape does not declare are dropped (zod's default, "strip").  A
    key of the shape is set in the output when the input has it or when
    its parsed value is not [undefined]. *)
Fixpoint parse_shape (shape : list (string * schema)) (input : object)
  : option object :=
  match shape with
  | [] => Some []
  | (k, sk) :: r =>
      match parse sk (get (VObj input) k), parse_shape r input with
      | Some y, Some r' =>
          if has_key k input || negb (match y with VUndefined => true | _ => false end)
          then Some ((k, y) :: r')
          else Some r'
      | _, _ => None
      end
  end.

End Members.

(** [schema.parse(v)]: [Some] of the parsed value, or [None] where zod
    throws a ZodError. *)
Fixpoint parse (s : schema) (v : value) {struct s} : option value :=
  match s with
  | ZString => match v with VStr _ => Some v | _ => None end
  | ZDatetime =>
      match v with
      | VStr x => if isDatetime x then Some v else None
      | _ => None
      end
  | ZNumber =>
      match v with
      | VNum n => if PrimFloat.is_nan n then None else Some v
      | _ => None
      end
  | ZBoolean => match v with VBool _ => Some v | _ => None end
  | ZUnknown => Some v
  | ZNativeEnum members =>
      match v with
      | VStr x => if existsb (String.eqb x) members then Some v else None
      | _ => None
      end
  | ZNullish inner =>
      match v with
      | VUndefined => Some VUndefined
      | VNull => Some VNull
      | _ => parse inner v
      end
  | ZUnion options => parse_union parse options v
  | ZRecord valueType =>
      match v with
      | VObj es => option_map VObj (parse_record parse valueType es)
      | _ => None
      end
  | ZObject shape =>
      match v with
      | VObj input => option_map VObj (parse_shape parse shape input)
      | _ => None
      end
  end.

End Zod.

Import Zod.

(** ** The schemas (lines 9-55 of the source) *)

(** Modelled from the spec: the enum [ObservationLevel] of the generated
    database client, whose declaration is not among the sources; section 3
    of the specification lists its four members. *)
Definition ObservationLevel : list string :=
  ["DEBUG"; "DEFAULT"; "WARNING"; "ERROR"].

(** Modelled from the spec: the member [ObservationType.GENERATION] of the
    generated database client (section 3: kind is one of EVENT, SPAN,
    GENERATION). *)
Definition ObservationType_GENERATION : value := VStr "GENERATION".

Definition modelParametersSchema : schema :=
  ZNullish (ZRecord (ZNullish (ZUnion [ZString; ZNumber; ZBoolean]))).

Definition usageSchema : schema :=
  ZObject [("promptTokens", ZNullish ZNumber);
           ("completionTokens", ZNullish ZNumber);
           ("totalTokens", ZNullish ZNumber)].

Definition GenerationsCreateSchema : schema :=
  ZObject [("traceId", ZNullish ZString);
           ("name", ZNullish ZString);
           ("startTime", ZNullish ZDatetime);
           ("endTime", ZNullish ZDatetime);
           ("model", ZNullish ZString);
           ("modelParameters", modelParametersSchema);
           ("prompt", ZNullish ZUnknown);
           ("completion", ZNullish ZString);
           ("usage", usageSchema);
           ("metadata", ZNullish ZUnknown);
           ("parentObservationId", ZNullish ZString);
           ("level", ZNullish (ZNativeEnum ObservationLevel));
           ("statusMessage", ZNullish ZString)].

Definition GenerationPatchSchema : schema :=
  ZObject [("generationId", ZString);
           ("name", ZNullish ZString);
           ("endTime", ZNullish ZDatetime);
           ("model", ZNullish ZString);
           ("modelParameters", modelParametersSchema);
           ("prompt", ZNullish ZUnknown);
           ("completion", ZNullish ZString);
           ("usage", usageSchema);
           ("metadata", ZNullish ZUnknown);
           ("level", ZNullish (ZNativeEnum ObservationLevel));
           ("statusMessage", ZNullish ZString)].

(** What the two schemas return for the supplied value of an optional key
    other than [usage]: the value as it is, except that a record of model
    parameters comes back without an own key [__proto__]. *)
Definition parsed_field (k : string) (v : value) : value :=
  if (k =? "modelParameters")%string
  then match v with VObj es => VObj (kept es) | _ => v end
  else v.

(** ** The expressions of the two branches *)

Record Scope : Type := { projectId : string }.

(** Lines 110-119 and 177-186: the same expression in both branches. *)
Definition calculatedUsage (usage : value) : value :=
  if truthy usage then
    VObj (assign (spread usage)
            [("totalTokens",
              if truthy (and (not (get usage "totalTokens"))
                             (or (get usage "promptTokens")
                                 (get usage "completionTokens")))
              then add (coalesce (get usage "promptTokens") (VNum 0))
                       (coalesce (get usage "completionTokens") (VNum 0))
              else get usage "totalTokens")])
  else VUndefined.

(** The number that [(v ?? 0)] is, for [v] a number, [null] or
    [undefined]. *)
Definition number (v : value) : float :=
  match v with
  | VNum n => n
  | _ => 0%float
  end.

(** Lines 97-102: the references handed to the access-scope check. *)
Definition createRefs (traceId parentObservationId : value) : list value :=
  (if truthy traceId
   then [VObj [("type", VStr "trace"); ("id", traceId)]] else [])
  ++
  (if truthy parentObservationId
   then [VObj [("type", VStr "observation"); ("id", parentObservationId)]]
   else []).

(** Lines 122-148: the [data] of [prisma.observation.create], from the
    parsed payload [p]. *)
Definition createData (scope : Scope) (p : value) : value :=
  let traceId := get p "traceId" in
  let name := get p "name" in
  let startTime := get p "startTime" in
  let endTime := get p "endTime" in
  let model := get p "model" in
  let modelParameters := get p "modelParameters" in
  let prompt := get p "prompt" in
  let completion := get p "completion" in
  let usage := get p "usage" in
  let metadata := get p "metadata" in
  let parentObservationId := get p "parentObservationId" in
  let level := get p "level" in
  let statusMessage := get p "statusMessage" in
  VObj (assign
    (if truthy traceId
     then [("trace", VObj [("connect", VObj [("id", traceId)])])]
     else [("trace",
            VObj [("create",
                   VObj [("name", name);
                         ("project",
                          VObj [("connect",
                                 VObj [("id", VStr (projectId scope))])])])])])
    [("type", ObservationType_GENERATION);
     ("name", name);
     ("startTime", if truthy startTime
                   then newDate startTime
                   else VUndefined);
     ("endTime", if truthy endTime
                 then newDate endTime
                 else VUndefined);
     ("metadata", coalesce metadata VUndefined);
     ("model", coalesce model VUndefined);
     ("modelParameters", coalesce modelParameters VUndefined);
     ("input", coalesce prompt VUndefined);
     ("output", if truthy completion
                then VObj [("completion", completion)] else VUndefined);
     ("usage", calculatedUsage usage);
     ("level", coalesce level VUndefined);
     ("statusMessage", coalesce statusMessage VUndefined);
     ("parent", if truthy parentObservationId
                then VObj [("connect", VObj [("id", parentObservationId)])]
                else VUndefined)]).

(** Line 163: [{ generationId, endTime, prompt, completion, usage, ...fields }] *)
Definition patchFields (p : value) : value :=
  rest ["generationId"; "endTime"; "prompt"; "completion"; "usage"] p.

(** Lines 190-200: the [data] of [prisma.observation.update]. *)
Definition patchData (p : value) : value :=
  let endTime := get p "endTime" in
  let prompt := get p "prompt" in
  let completion := get p "completion" in
  let usage := get p "usage" in
  let fields := patchFields p in
  VObj (assign
    [("endTime", if truthy endTime
                 then newDate endTime
                 else VUndefined);
     ("input", coalesce prompt VUndefined);
     ("output", if truthy completion
                then VObj [("completion", completion)] else VUndefined);
     ("usage", calculatedUsage usage)]
    (filter (fun kv => negb (nullish (snd kv))) (entries fields))).

(** The two parts of [patchData], to state what it holds: the four
    properties written out in the literal, and the entries spread into it. *)

Definition contentFields (p : value) : object :=
  [("endTime", if truthy (get p "endTime")
               then newDate (get p "endTime") else VUndefined);
   ("input", coalesce (get p "prompt") VUndefined);
   ("output", if truthy (get p "completion")
              then VObj [("completion", get p "completion")]
              else VUndefined);
   ("usage", calculatedUsage (get p "usage"))].

Definition elidedFields (p : value) : object :=
  filter (fun kv => negb (nullish (snd kv))) (entries (patchFields p)).

(** The keys the destructuring of line 163 takes out of [fields], and the
    optional keys of the schema it leaves in. *)

Definition taken : list string :=
  ["generationId"; "endTime"; "prompt"; "completion"; "usage"].

Definition elided : list string :=
  ["name"; "model"; "modelParameters"; "metadata"; "level"; "statusMessage"].

(** ** The handler *)

Record Request : Type :=
  { method : string;
    authorization : option string;       (* req.headers.authorization *)
    body : value }.

Record Response : Type := { status : Z; json : value }.

(** Modelled from the spec: what awaiting [verifyAuthHeaderAndReturnScope]
    gives (features/publicApi/server/apiAuth is not among the sources).  The
    handler reads [validKey], and then [scope] of a valid key or [error] of
    an invalid one.  [Rejected] is the call that throws instead of
    returning: lines 68-70 await it outside any [try]. *)
Inductive AuthCheck : Type :=
| ValidKey (scope : Scope)
| InvalidKey (error : string)
| Rejected (message : string).

Definition validKey (a : AuthCheck) : bool :=
  match a with ValidKey _ => true | _ => false end.

(** The collaborators the handler imports: the credential check and the
    access-scope check of features/publicApi and the persistence client.
    A persistence call returns the stored record, or throws an error with a
    message, and leaves a new state of the store. *)
Class Collaborators (Store : Type) : Type :=
  { verifyAuthHeaderAndReturnScope : option string -> Store -> AuthCheck;
    checkApiAccessScope : Scope -> list value -> Store -> bool;
    prisma_observation_create : value -> Store -> (string + value) * Store;
    prisma_observation_update : value -> Store -> (string + value) * Store }.

(** The calls the handler makes, in program order. *)
Inductive Event : Type :=
| RunMiddleware
| VerifyAuth (header : option string)
| SchemaParse (s : schema) (input : value)
| CheckAccess (scope : Scope) (refs : list value)
| ObservationCreate (args : value)
| ObservationUpdate (args : value).

(** How a block of the handler ends: normally with a value, by a thrown
    error, or with the response sent and the function left. *)
Inductive Completion (A : Type) : Type :=
| Normal (a : A)
| Throw (message : string)
| Sent (r : Response).

Arguments Normal {A} a.
Arguments Throw {A} message.
Arguments Sent {A} r.

Section Handler.

Context {Store : Type} {C : Collaborators Store}.

Record World : Type := { db : Store; calls : list Event }.

Definition M (A : Type) : Type := World -> Completion A * World.

Definition ret {A} (a : A) : M A := fun w => (Normal a, w).

Definition bind {A B} (m : M A) (k : A -> M B) : M B :=
  fun w =>
    match m w with
    | (Normal a, w') => k a w'
    | (Throw e, w') => (Throw e, w')
    | (Sent r, w') => (Sent r, w')
    end.

Definition throw {A} (message : string) : M A := fun w => (Throw message, w).

(** [res.status(n).json(v)], followed by [return] or by the end of the
    function: after line 151 and line 203 nothing else runs. *)
Definition send {A} (n : Z) (v : value) : M A :=
  fun w => (Sent {| status := n; json := v |}, w).

(** [try { m } catch (error) { h error.message }]: a [return] inside the
    block leaves the function without entering the handler. *)
Definition try_catch {A} (m : M A) (h : string -> M A) : M A :=
  fun w =>
    match m w with
    | (Throw e, w') => h e w'
    | other => other
    end.

Definition record (e : Event) : M unit :=
  fun w => (Normal tt, {| db := db w; calls := calls w ++ [e] |}).

Notation "x <- m ;; k" := (bind m (fun x => k))
  (at level 61, m at next level, right associativity).
Notation "m ;;; k" := (bind m (fun _ => k))
  (at level 61, right associativity).

(** The text of a ZodError is the list of its issues; the model keeps one
    text for all of them. *)
Definition ZodError : string := "ZodError".

Definition schema_parse (s : schema) (input : value) : M value :=
  record (SchemaParse s input) ;;;
  match parse s input with
  | Some p => ret p
  | None => throw ZodError
  end.

Definition verify_auth (header : option string) : M AuthCheck :=
  record (VerifyAuth header) ;;;
  fun w => (Normal (verifyAuthHeaderAndReturnScope header (db w)), w).

Definition check_access (scope : Scope) (refs : list value) : M bool :=
  record (CheckAccess scope refs) ;;;
  fun w => (Normal (checkApiAccessScope scope refs (db w)), w).

Definition store_call (f : value -> Store -> (string + value) * Store)
  (args : value) : M value :=
  fun w =>
    match f args (db w) with
    | (inr o, st) => (Normal o, {| db := st; calls := calls w |})
    | (inl e, st) => (Throw e, {| db := st; calls := calls w |})
    end.

Definition observation_create (args : value) : M value :=
  record (ObservationCreate args) ;;;
  store_call prisma_observation_create args.

Definition observation_update (args : value) : M value :=
  record (ObservationUpdate args) ;;;
  store_call prisma_observation_update args.

Definition accessDenied : value :=
  VObj [("success", VBool false); ("message", VStr "Access denied")].

(** Lines 152-159 and 204-211.  What the zod parse and the persistence
    client throw are [Error] objects, so [errorMessage] is their message. *)
Definition invalidRequest (errorMessage : string) : value :=
  VObj [("success", VBool false);
        ("message", VStr "Invalid request data");
        ("error", VStr errorMessage)].

(** Lines 79-151, the block of the [try]. *)
Definition postBranch (scope : Scope) (body : value) : M unit :=
  p <- schema_parse GenerationsCreateSchema body ;;
  accessCheck <- check_access scope
                   (createRefs (get p "traceId")
                               (get p "parentObservationId")) ;;
  if negb accessCheck then send 403 accessDenied
  else
    newObservation <-
      observation_create (VObj [("data", createData scope p)]) ;;
    send 201 newObservation.

(** Lines 162-203, the block of the [try]. *)
Definition patchBranch (scope : Scope) (body : value) : M unit :=
  p <- schema_parse GenerationPatchSchema body ;;
  accessCheck <- check_access scope
                   [VObj [("type", VStr "observation");
                          ("id", get p "generationId")]] ;;
  if negb accessCheck then send 403 accessDenied
  else
    newObservation <-
      observation_update
        (VObj [("where", VObj [("id", get p "generationId")]);
               ("data", patchData p)]) ;;
    send 201 newObservation.

(** Lines 57-214.  The model starts where [runMiddleware] hands control
    back to the handler.  A run that ends in [Throw] is a handler that ended
    with an uncaught error: no response was sent. *)
Definition handler (req : Request) : M unit :=
  record RunMiddleware ;;;
  if negb (method req =? "POST")%string
  then send 405 (VObj [("message", VStr "Method not allowed")])
  else
    authCheck <- verify_auth (authorization req) ;;
    match authCheck with
    | Rejected message => throw message
    | InvalidKey error =>
        send 401 (VObj [("success", VBool false); ("message", VStr error)])
    | ValidKey scope =>
        if (method req =? "POST")%string
        then try_catch (postBranch scope (body req))
               (fun errorMessage => send 400 (invalidRequest errorMessage))
        else if (method req =? "PATCH")%string
        then try_catch (patchBranch scope (body req))
               (fun errorMessage => send 400 (invalidRequest errorMessage))
        else ret tt
    end.

(** A request against a store, with an empty record of calls. *)
Definition run (req : Request) (st : Store) : Completion unit * World :=
  handler req {| db := st; calls := [] |}.

Definition response (req : Request) (st : Store) : option Response :=
  match fst (run req st) with
  | Sent r => Some r
  | _ => None
  end.

Definition calls_of (req : Request) (st : Store) : list Event :=
  calls (snd (run req st)).

Definition store_after (req : Request) (st : Store) : Store :=
  db (snd (run req st)).

(** The PATCH branch run on its own against a store: the calls it makes. *)
Definition patch_calls (scope : Scope) (body : value) (st : Store)
  : list Event :=
  calls (snd (patchBranch scope body {| db := st; calls := [] |})).

(** Names for what the two branches pass on, to state their runs. *)

(** The calls of a POST request with a valid key up to the schema. *)
Definition parsedCalls (req : Request) : list Event :=
  [RunMiddleware; VerifyAuth (authorization req);
   SchemaParse GenerationsCreateSchema (body req)].

Definition logged (w : World) (es : list Event) : World :=
  {| db := db w; calls := calls w ++ es |}.

Definition createArgs (scope : Scope) (p : value) : value :=
  VObj [("data", createData scope p)].

(** Lines 127-130: the trace to create inline. *)
Definition inlineTrace (scope : Scope) (p : value) : value :=
  VObj [("name", get p "name");
        ("project",
         VObj [("connect", VObj [("id", VStr (projectId scope))])])].

Definition patchRef (p : value) : value :=
  VObj [("type", VStr "observation"); ("id", get p "generationId")].

Definition updateArgs (p : value) : value :=
  VObj [("where", VObj [("id", get p "generationId")]);
        ("data", patchData p)].

Definition methodNotAllowed : Response :=
  {| status := 405; json := VObj [("message", VStr "Method not allowed")] |}.

Definition unauthenticated (error : string) : Response :=
  {| status := 401;
     json := VObj [("success", VBool false); ("message", VStr error)] |}.

End Handler.

Arguments World Store : clear implicits.
Arguments M Store A : clear implicits.

(** ** A store behind the collaborators

    The credential check, the access-scope check and the persistence client
    are imported by the handler and are not among the sources.  The handler
    above is written against any implementation of them; this module gives
    one, from sections 3, 4.2 and 4.4 of the specification, to run the
    handler end to end. *)

Module Model.

(** Modelled from the spec: the tables of section 3.  A trace row has the
    columns [id], [name], [projectId]; an observation row has [id],
    [traceId], [parentObservationId] and the columns of [columns] below.
    [credentials] lists the issued credentials with their scopes. *)
Record Store : Type :=
  { traces : list object;
    observations : list object;
    credentials : list (string * Scope) }.

Definition same_id (a b : value) : bool :=
  match a, b with
  | VStr x, VStr y => (x =? y)%string
  | _, _ => false
  end.

Definition find_row (id : value) (rows : list object) : option object :=
  find (fun r => same_id (get (VObj r) "id") id) rows.

Definition id_length (r : object) : nat :=
  match get (VObj r) "id" with
  | VStr s => String.length s
  | _ => O
  end.

Fixpoint filler (n : nat) : string :=
  match n with
  | O => ""
  | S n' => String "c" (filler n')
  end.

(** Modelled from the spec: the store gives a new record an id of its own
    choice (section 4.4 leaves the choice open); the model takes one longer
    than every id of the table. *)
Definition fresh_id (rows : list object) : value :=
  VStr (filler (S (list_max (map id_length rows)))).

Definition trace_project (st : Store) (traceId : value) : option value :=
  option_map (fun t => get (VObj t) "projectId")
             (find_row traceId (traces st)).

(** Modelled from the spec: section 3, "every Trace and, transitively,
    every Observation belongs to exactly one Project". *)
Definition owner (st : Store) (ref : value) : option value :=
  match get ref "type" with
  | VStr kind =>
      if (kind =? "trace")%string then trace_project st (get ref "id")
      else if (kind =? "observation")%string then
        match find_row (get ref "id") (observations st) with
        | Some o => trace_project st (get (VObj o) "traceId")
        | None => None
        end
      else None
  | _ => None
  end.

(** Modelled from the spec: [checkApiAccessScope] of
    features/publicApi/server/apiScope, section 4.2: "access is granted only
    if every ref's owning project equals scope.projectId (logical AND across
    all refs; a single mismatch or unresolvable ref fails the whole
    check)". *)
Definition checkAccess (scope : Scope) (refs : list value) (st : Store)
  : bool :=
  forallb (fun ref =>
             match owner st ref with
             | Some pid => same_id pid (VStr (projectId scope))
             | None => false
             end) refs.

(** Modelled from the spec: [verifyAuthHeaderAndReturnScope] of
    features/publicApi/server/apiAuth, section 4.2: "resolveScope(credential)
    -> Scope | fails(Unauthenticated)"; a credential is valid when it was
    issued. *)
Definition resolveScope (header : option string) (st : Store) : AuthCheck :=
  match header with
  | None => InvalidKey "No authorization header"
  | Some h =>
      match find (fun c => (fst c =? h)%string) (credentials st) with
      | Some c => ValidKey (snd c)
      | None => InvalidKey "Invalid credentials"
      end
  end.

Definition columns : list string :=
  ["type"; "name"; "startTime"; "endTime"; "metadata"; "model";
   "modelParameters"; "input"; "output"; "usage"; "level"; "statusMessage"].

Definition new_observation (rows : list object) (traceId parentId data : value)
  : object :=
  ([("id", fresh_id rows); ("traceId", traceId);
    ("parentObservationId", parentId)]
   ++ map (fun k => (k, coalesce (get data k) VNull)) columns)%list.

Definition new_trace (rows : list object) (spec : value) : object :=
  [("id", fresh_id rows);
   ("name", coalesce (get spec "name") VNull);
   ("projectId", get (get (get spec "project") "connect") "id")].

(** Modelled from the spec: [create] of section 4.4: the trace relation is
    either "connect to existing trace id" or "create trace inline with these
    fields", plus an optional "connect to parent observation id"; a record to
    connect to that does not exist is a failure, and a failure leaves the
    store as it was. *)
Definition create (args : value) (st : Store) : (string + value) * Store :=
  let data := get args "data" in
  let trace := get data "trace" in
  let parent := get data "parent" in
  let parentId := get (get parent "connect") "id" in
  if negb (nullish parent) &&
     match find_row parentId (observations st) with
     | Some _ => false
     | None => true
     end
  then (inl "No parent observation to connect", st)
  else
    let parentColumn := if nullish parent then VNull else parentId in
    if carries trace "connect" then
      let traceId := get (get trace "connect") "id" in
      match find_row traceId (traces st) with
      | None => (inl "No trace to connect", st)
      | Some _ =>
          let o := new_observation (observations st) traceId parentColumn data in
          (inr (VObj o),
           {| traces := traces st;
              observations := observations st ++ [o];
              credentials := credentials st |})
      end
    else
      let t := new_trace (traces st) (get trace "create") in
      let o := new_observation (observations st) (get (VObj t) "id")
                 parentColumn data in
      (inr (VObj o),
       {| traces := traces st ++ [t];
          observations := observations st ++ [o];
          credentials := credentials st |}).

(** The columns a patch sets: the keys it carries with a value. *)
Definition carried (data : value) : object :=
  filter (fun kv => match snd kv with VUndefined => false | _ => true end)
         (spread data).

(** The record after a patch: the carried columns are overwritten, every
    other column stays. *)
Definition patched (args : value) (row : object) : object :=
  assign row (carried (get args "data")).

(** Modelled from the spec: [update] of section 4.4, which "applies a
    partial field patch to exactly one existing record"; an id that is not
    found is a failure. *)
Definition update (args : value) (st : Store) : (string + value) * Store :=
  let id := get (get args "where") "id" in
  match find_row id (observations st) with
  | None => (inl "Record to update not found", st)
  | Some row =>
      let row' := patched args row in
      (inr (VObj row'),
       {| traces := traces st;
          observations :=
            map (fun r => if same_id (get (VObj r) "id") id then row' else r)
                (observations st);
          credentials := credentials st |})
  end.

(** The value a stored observation has in a column. *)
Definition stored (st : Store) (id : value) (k : string) : option value :=
  option_map (fun r => get (VObj r) k) (find_row id (observations st)).

#[global] Instance collaborators : Collaborators Store :=
  {| verifyAuthHeaderAndReturnScope := resolveScope;
     checkApiAccessScope := checkAccess;
     prisma_observation_create := create;
     prisma_observation_update := update |}.

(** *** A store and requests to run *)

Definition acme : Scope := {| projectId := "acme" |}.

Definition st0 : Store :=
  {| traces :=
       [[("id", VStr "t-acme"); ("name", VStr "chat"); ("projectId", VStr "acme")];
        [("id", VStr "t-other"); ("name", VNull); ("projectId", VStr "other")]];
     observations :=
       [[("id", VStr "g-acme"); ("traceId", VStr "t-acme");
         ("parentObservationId", VNull); ("type", VStr "GENERATION");
         ("name", VStr "first"); ("output", VNull)];
        [("id", VStr "g-other"); ("traceId", VStr "t-other");
         ("parentObservationId", VNull); ("type", VStr "GENERATION");
         ("name", VStr "theirs"); ("output", VNull)]];
     credentials := [("Basic acme-key", acme)] |}.

Definition zero_counts : value :=
  VObj [("promptTokens", VNum 0); ("completionTokens", VNum 0)].

Definition ten_and_five : value :=
  VObj [("promptTokens", VNum 10); ("completionTokens", VNum 5)].

Definition empty_completion : value :=
  VObj [("prompt", VStr "hi"); ("completion", VStr ""); ("usage", VObj [])].

Definition answered : value :=
  VObj [("name", VStr "n"); ("prompt", VStr "hi");
        ("completion", VStr "hello"); ("usage", ten_and_five)].

Definition empty_traceId : value :=
  VObj [("traceId", VStr ""); ("name", VStr "n"); ("usage", VObj [])].

Definition post (b : value) : Request :=
  {| method := "POST"; authorization := Some "Basic acme-key"; body := b |}.

Definition name_null : value :=
  VObj [("generationId", VStr "g-acme"); ("name", VNull); ("usage", VObj [])].

Definition name_foo : value :=
  VObj [("generationId", VStr "g-acme"); ("name", VStr "foo");
        ("usage", VObj [])].

Definition moved : value :=
  VObj [("generationId", VStr "g-acme"); ("usage", VObj []);
        ("traceId", VStr "t-other"); ("type", VStr "SPAN")].

Definition emptied : value :=
  VObj [("generationId", VStr "g-acme"); ("completion", VStr "");
        ("usage", VObj [])].

Definition finished : value :=
  VObj [("generationId", VStr "g-acme");
        ("endTime", VStr "2023-05-01T10:00:00Z");
        ("prompt", VStr ""); ("completion", VStr "done");
        ("usage", VObj [])].

Definition theirs : value :=
  VObj [("generationId", VStr "g-other"); ("usage", VObj [])].

Definition row_acme : object :=
  [("id", VStr "g-acme"); ("traceId", VStr "t-acme");
   ("parentObservationId", VNull); ("type", VStr "GENERATION");
   ("name", VStr "first"); ("output", VNull)].

Definition anonymous (m : string) : Request :=
  {| method := m; authorization := None; body := VUndefined |}.

Definition patch (b : value) : Request :=
  {| method := "PATCH"; authorization := Some "Basic acme-key"; body := b |}.

End Model.

(** ** A persistence client that is out of reach

    Every call of the client throws; the credential and the access check
    pass.  It runs the [catch] blocks of the handler on a store error. *)

Module Outage.

Inductive Store : Type := down.

Definition refused : string := "Can't reach database server".

#[global] Instance collaborators : Collaborators Store :=
  {| verifyAuthHeaderAndReturnScope := fun _ _ => ValidKey {| projectId := "acme" |};
     checkApiAccessScope := fun _ _ _ => true;
     prisma_observation_create := fun _ st => (inl refused, st);
     prisma_observation_update := fun _ st => (inl refused, st) |}.

End Outage.

(** ** A credential check that is out of reach

    The credential check throws, as it does when its own lookup fails. *)

Module Lockout.

Inductive Store : Type := unreachable.

Definition failure : string := "Can't reach database server".

#[global] Instance collaborators : Collaborators Store :=
  {| verifyAuthHeaderAndReturnScope := fun _ _ => Rejected failure;
     checkApiAccessScope := fun _ _ _ => true;
     prisma_observation_create := fun _ st => (inl failure, st);
     prisma_observation_update := fun _ st => (inl failure, st) |}.

End Lockout.

(** ** The PATCH block on its own *)

Section PatchBlock.

Context {Store : Type} {C : Collaborators Store}.

(** Lines 161-212: the [try] block of the PATCH branch with its [catch],
    run against a store from an empty record of calls. *)
Definition patchBlock (scope : Scope) (body : value) (st : Store)
  : Completion unit * World Store :=
  try_catch (patchBranch scope body)
    (fun errorMessage => send 400 (invalidRequest errorMessage))
    {| db := st; calls := [] |}.

End PatchBlock.

(** ** The shapes of the two schemas *)

Definition createShape : list (string * schema) :=
  match GenerationsCreateSchema with ZObject s => s | _ => [] end.

Definition patchShape : list (string * schema) :=
  match GenerationPatchSchema with ZObject s => s | _ => [] end.

(** A schema is stable when what it returns it accepts as it is. *)
Definition stable (s : schema) : Prop :=
  forall v y, parse s v = Some y -> parse s y = Some y.

(** ** More payloads to run *)

Module Samples.

Definition no_usage : value := VObj [("name", VStr "n")].

Definition connected : value :=
  VObj [("traceId", VStr "t-acme"); ("name", VNull);
        ("startTime", VStr "2023-05-01T10:00:00Z"); ("model", VNull);
        ("usage", VObj []); ("parentObservationId", VStr "g-acme")].

Definition foreign_trace : value :=
  VObj [("traceId", VStr "t-other"); ("usage", VObj [])].

Definition with_extras : value :=
  VObj [("id", VStr "mine"); ("name", VStr "n"); ("prompt", VStr "hi");
        ("completion", VStr "hello"); ("usage", Model.ten_and_five);
        ("projectId", VStr "other")].

Definition no_generationId : value := VObj [("usage", VObj [])].

Definition tuned : value :=
  VObj [("generationId", VStr "g-acme");
        ("modelParameters",
         VObj [("__proto__", VStr "x"); ("temperature", VNum 0.5)]);
        ("usage", VObj [])].

Definition tuned_create : value :=
  VObj [("model", VNull);
        ("modelParameters",
         VObj [("__proto__", VStr "x"); ("temperature", VNum 0.5)]);
        ("usage", VObj [])].

Definition counted : value :=
  VObj [("promptTokens", VNum 10); ("completionTokens", VNum 5);
        ("cost", VNum 3)].

End Samples.

(** * Properties *)

Unset Implicit Arguments.

(** ** Objects *)

Lemma lookup_None_iff (k : string) (o : object) :
  lookup k o = None <-> ~ In k (keys o).
Proof.
  induction o as [|[k' v] r IH]; simpl.
  - tauto.
  - destruct (String.eqb_spec k k') as [->|Hne].
    + split; [discriminate | intros H; exfalso; apply H; now left].
    + rewrite IH. split; intros H.
      * intros [E|E]; [congruence | tauto].
      * intros E; apply H; now right.
Qed.

Lemma has_key_false_iff (k : string) (o : object) :
  has_key k o = false <-> ~ In k (keys o).
Proof.
  unfold has_key. rewrite <- lookup_None_iff.
  destruct (lookup k o); split; congruence.
Qed.

Lemma lookup_set_same (k : string) (v : value) (o : object) :
  lookup k (set k v o) = Some v.
Proof.
  induction o as [|[k' v'] r IH]; simpl.
  - now rewrite String.eqb_refl.
  - destruct (String.eqb_spec k k') as [->|Hne]; simpl.
    + now rewrite String.eqb_refl.
    + destruct (String.eqb_spec k k'); [contradiction | exact IH].
Qed.

Lemma lookup_set_other (k k' : string) (v : value) (o : object) :
  k <> k' -> lookup k (set k' v o) = lookup k o.
Proof.
  intros Hne. induction o as [|[k2 v2] r IH]; simpl.
  - destruct (String.eqb_spec k k'); [contradiction | reflexivity].
  - destruct (String.eqb_spec k' k2) as [->|Hne2]; simpl.
    + destruct (String.eqb_spec k k2); [contradiction | reflexivity].
    + destruct (String.eqb_spec k k2); [reflexivity | exact IH].
Qed.

Lemma keys_set (k k' : string) (v : value) (o : object) :
  In k (keys (set k' v o)) <-> k = k' \/ In k (keys o).
Proof.
  induction o as [|[k2 v2] r IH]; simpl.
  - intuition congruence.
  - destruct (String.eqb_spec k' k2) as [->|Hne]; simpl.
    + intuition congruence.
    + rewrite IH. intuition congruence.
Qed.

Lemma keys_assign (k : string) (b a : object) :
  In k (keys (assign a b)) <-> In k (keys a) \/ In k (keys b).
Proof.
  unfold assign. revert a.
  induction b as [|[k1 v1] r IH]; intros a; simpl.
  - tauto.
  - rewrite IH, keys_set. simpl. intuition congruence.
Qed.

(** Assigning entries with distinct keys: an assigned key reads as
    assigned, every other key as before. *)
Lemma lookup_assign (k : string) (b a : object) :
  NoDup (keys b) ->
  lookup k (assign a b) =
  match lookup k b with Some v => Some v | None => lookup k a end.
Proof.
  unfold assign. revert a.
  induction b as [|[k1 v1] r IH]; intros a Hnd; simpl.
  - reflexivity.
  - inversion Hnd as [|? ? Hnotin Hnd']; subst.
    rewrite (IH _ Hnd').
    destruct (String.eqb_spec k k1) as [->|Hne].
    + apply lookup_None_iff in Hnotin. rewrite Hnotin.
      apply lookup_set_same.
    + now rewrite lookup_set_other.
Qed.

Lemma keys_filter (f : string * value -> bool) (k : string) (o : object) :
  In k (keys (filter f o)) -> In k (keys o).
Proof.
  unfold keys. rewrite !in_map_iff.
  intros [x [E Hin]]. apply filter_In in Hin. exists x. tauto.
Qed.

Lemma NoDup_keys_filter (f : string * value -> bool) (o : object) :
  NoDup (keys o) -> NoDup (keys (filter f o)).
Proof.
  induction o as [|[k v] r IH]; simpl; intros Hnd.
  - constructor.
  - inversion Hnd as [|? ? Hnotin Hnd']; subst.
    destruct (f (k, v)); simpl.
    + constructor; [|now apply IH].
      intros Hin. apply Hnotin. now apply keys_filter in Hin.
    + now apply IH.
Qed.

Lemma lookup_filter (f : string * value -> bool) (k : string) (o : object) :
  NoDup (keys o) ->
  lookup k (filter f o) =
  match lookup k o with
  | Some v => if f (k, v) then Some v else None
  | None => None
  end.
Proof.
  induction o as [|[k' v] r IH]; simpl; intros Hnd.
  - reflexivity.
  - inversion Hnd as [|? ? Hnotin Hnd']; subst.
    destruct (String.eqb_spec k k') as [->|Hne].
    + destruct (f (k', v)) eqn:Ef; simpl.
      * now rewrite String.eqb_refl.
      * apply lookup_None_iff. intros Hin. apply Hnotin.
        now apply keys_filter in Hin.
    + destruct (f (k', v)); simpl.
      * destruct (String.eqb_spec k k'); [contradiction | now apply IH].
      * now apply IH.
Qed.

(** ** Parsing *)

Lemma parse_shape_keys shape input o k :
  parse_shape parse shape input = Some o ->
  In k (keys o) -> In k (declared shape).
Proof.
  revert o. induction shape as [|[k1 s1] r IH]; simpl; intros o H Hin.
  - injection H as <-. exact Hin.
  - destruct (parse s1 _) as [y|]; [|discriminate].
    destruct (parse_shape parse r input) as [r'|]; [|discriminate].
    destruct (has_key k1 input || _); injection H as <-.
    + destruct Hin as [E|Hin]; [now left | right; eauto].
    + right; eauto.
Qed.

Lemma parse_shape_NoDup shape input o :
  NoDup (declared shape) ->
  parse_shape parse shape input = Some o ->
  NoDup (keys o).
Proof.
  revert o. induction shape as [|[k1 s1] r IH]; simpl; intros o Hnd H.
  - injection H as <-. constructor.
  - inversion Hnd as [|? ? Hnotin Hnd']; subst.
    destruct (parse s1 _) as [y|]; [|discriminate].
    destruct (parse_shape parse r input) as [r'|] eqn:Er; [|discriminate].
    destruct (has_key k1 input || _); injection H as <-; [|now apply IH].
    simpl. constructor; [|now apply IH].
    intros Hin. apply Hnotin. eapply parse_shape_keys; eauto.
Qed.

(** Every declared key of the output holds the parsed value of the same key
    of the input. *)
Lemma parse_shape_get shape input o k sk :
  NoDup (declared shape) ->
  parse_shape parse shape input = Some o ->
  In (k, sk) shape ->
  parse sk (get (VObj input) k) = Some (get (VObj o) k).
Proof.
  revert o. induction shape as [|[k1 s1] r IH]; simpl; intros o Hnd H Hin.
  - contradiction.
  - inversion Hnd as [|? ? Hnotin Hnd']; subst.
    destruct (parse s1 _) as [y|] eqn:E1; [|discriminate].
    destruct (parse_shape parse r input) as [r'|] eqn:Er; [|discriminate].
    destruct Hin as [E|Hin].
    + injection E as -> ->.
      destruct (has_key k input) eqn:Hk; simpl in H.
      * injection H as <-. simpl. now rewrite String.eqb_refl.
      * assert (Hr : lookup k r' = None).
        { apply lookup_None_iff. intros Hin. apply Hnotin.
          eapply parse_shape_keys; eauto. }
        destruct y; simpl in H; injection H as <-; simpl;
          rewrite ?String.eqb_refl, ?Hr; assumption.
    + assert (Hne : k <> k1).
      { intros ->. apply Hnotin. apply (in_map fst) in Hin. exact Hin. }
      specialize (IH r' Hnd' eq_refl Hin).
      destruct (has_key k1 input || _); injection H as <-; [|exact IH].
      simpl. destruct (String.eqb_spec k k1); [contradiction | exact IH].
Qed.

Lemma parse_object_inv shape body p :
  parse (ZObject shape) body = Some p ->
  exists input o,
    body = VObj input /\ p = VObj o /\
    parse_shape parse shape input = Some o.
Proof.
  simpl. destruct body as [| | | | | | |input]; try discriminate.
  destruct (parse_shape parse shape input) as [o|] eqn:E; [|discriminate].
  intros H; injection H as <-. eauto.
Qed.

Lemma parse_object_get shape body p k sk :
  NoDup (declared shape) ->
  parse (ZObject shape) body = Some p ->
  In (k, sk) shape ->
  parse sk (get body k) = Some (get p k).
Proof.
  intros Hnd H Hin.
  destruct (parse_object_inv _ _ _ H) as (input & o & -> & -> & Hs).
  eapply parse_shape_get; eauto.
Qed.

(** A key the shape does not declare is stripped. *)
Lemma parse_object_strip shape body p k :
  parse (ZObject shape) body = Some p ->
  ~ In k (declared shape) ->
  has_key k (spread p) = false.
Proof.
  intros H Hk.
  destruct (parse_object_inv _ _ _ H) as (input & o & -> & -> & Hs).
  simpl. apply has_key_false_iff. intros Hin. apply Hk.
  eapply parse_shape_keys; eauto.
Qed.

Lemma parse_object_NoDup shape body p :
  NoDup (declared shape) ->
  parse (ZObject shape) body = Some p ->
  NoDup (keys (spread p)).
Proof.
  intros Hnd H.
  destruct (parse_object_inv _ _ _ H) as (input & o & -> & -> & Hs).
  simpl. eapply parse_shape_NoDup; eauto.
Qed.

(** The schemas of the optional fields return their input as it is. *)

Lemma parse_nullish_string v v' :
  parse (ZNullish ZString) v = Some v' ->
  v' = v /\ (nullish v = true \/ exists s, v = VStr s).
Proof.
  destruct v; simpl; intros H; try discriminate; injection H as <-;
    split; auto; right; eauto.
Qed.

Lemma parse_nullish_datetime v v' :
  parse (ZNullish ZDatetime) v = Some v' ->
  v' = v /\ (nullish v = true \/ exists s, v = VStr s /\ isDatetime s = true).
Proof.
  destruct v; simpl; intros H; try discriminate.
  1-2: injection H as <-; auto.
  destruct (isDatetime s) eqn:E; [|discriminate].
  injection H as <-. split; auto. right; eauto.
Qed.

Lemma parse_nullish_number v v' :
  parse (ZNullish ZNumber) v = Some v' ->
  v' = v /\ (nullish v = true \/ exists n, v = VNum n).
Proof.
  destruct v as [| | |n| | | |]; simpl; intros H; try discriminate.
  1-2: injection H as <-; auto.
  destruct (PrimFloat.is_nan n); [discriminate|].
  injection H as <-. split; auto. right; eauto.
Qed.

Lemma parse_nullish_unknown v v' :
  parse (ZNullish ZUnknown) v = Some v' -> v' = v.
Proof.
  destruct v; simpl; intros H; injection H as <-; reflexivity.
Qed.

Lemma parse_nullish_enum members v v' :
  parse (ZNullish (ZNativeEnum members)) v = Some v' ->
  v' = v /\
  (nullish v = true \/
   exists s, v = VStr s /\ existsb (String.eqb s) members = true).
Proof.
  destruct v; simpl; intros H; try discriminate.
  1-2: injection H as <-; auto.
  destruct (existsb _ members) eqn:E; [|discriminate].
  injection H as <-. split; auto. right; eauto.
Qed.

Lemma parse_parameter_value v v' :
  parse (ZNullish (ZUnion [ZString; ZNumber; ZBoolean])) v = Some v' ->
  v' = v.
Proof.
  destruct v as [| | |n| | | |]; simpl; intros H; try discriminate;
    try (injection H as <-; reflexivity).
  destruct (PrimFloat.is_nan n); simpl in H; [discriminate|].
  injection H as <-. reflexivity.
Qed.

(** The parsed record of model parameters: the supplied entries, without
    those under the key [__proto__]. *)
Lemma parse_parameters_record es es' :
  parse_record parse (ZNullish (ZUnion [ZString; ZNumber; ZBoolean])) es
  = Some es' ->
  es' = kept es.
Proof.
  revert es'. induction es as [|[k x] r IH]; intros es' H.
  - simpl in H. now injection H as <-.
  - cbn [parse_record] in H.
    destruct (parse _ x) as [y|] eqn:Ex; [|discriminate].
    destruct (parse_record parse _ r) as [r'|] eqn:Er; [|discriminate].
    injection H as <-.
    apply parse_parameter_value in Ex. subst y.
    rewrite (IH r' eq_refl). unfold kept. cbn [filter fst].
    destruct (k =? "__proto__")%string; reflexivity.
Qed.

Lemma parse_modelParameters v v' :
  parse modelParametersSchema v = Some v' ->
  (nullish v = true /\ v' = v) \/
  (exists es, v = VObj es /\ v' = VObj (kept es)).
Proof.
  unfold modelParametersSchema.
  destruct v as [| | | | | | |es]; cbn [parse]; intros H; try discriminate.
  1-2: injection H as <-; auto.
  destruct (parse_record parse _ es) as [es'|] eqn:E;
    [|discriminate].
  apply parse_parameters_record in E. subst es'.
  injection H as <-. right; eauto.
Qed.

Lemma parsed_modelParameters v v' :
  parse modelParametersSchema v = Some v' ->
  v' = parsed_field "modelParameters" v.
Proof.
  intros H. apply parse_modelParameters in H.
  destruct H as [[Hn ->] | (es & -> & ->)]; [|reflexivity].
  destruct v; try discriminate; reflexivity.
Qed.

Lemma nullish_parsed_field (k : string) (v : value) :
  nullish (parsed_field k v) = nullish v.
Proof.
  unfold parsed_field. destruct (k =? "modelParameters")%string;
    destruct v; reflexivity.
Qed.

Lemma NoDup_create_shape :
  NoDup (declared
    match GenerationsCreateSchema with ZObject s => s | _ => [] end).
Proof.
  simpl. repeat (constructor; [simpl; intuition discriminate|]). constructor.
Qed.

Lemma NoDup_patch_shape :
  NoDup (declared
    match GenerationPatchSchema with ZObject s => s | _ => [] end).
Proof.
  simpl. repeat (constructor; [simpl; intuition discriminate|]). constructor.
Qed.

Lemma NoDup_usage_shape :
  NoDup (declared match usageSchema with ZObject s => s | _ => [] end).
Proof.
  simpl. repeat (constructor; [simpl; intuition discriminate|]). constructor.
Qed.

(** ** The runs of the handler *)

Section Runs.

Context {Store : Type} {C : Collaborators Store}.

(** The runs of the POST branch, case by case. *)
Lemma postBranch_run (scope : Scope) (body : value) (w : World Store) :
  postBranch scope body w =
  match parse GenerationsCreateSchema body with
  | None =>
      (Throw ZodError, logged w [SchemaParse GenerationsCreateSchema body])
  | Some p =>
      let refs := createRefs (get p "traceId") (get p "parentObservationId") in
      if checkApiAccessScope scope refs (db w) then
        match prisma_observation_create (createArgs scope p) (db w) with
        | (inr o, st') =>
            (Sent {| status := 201; json := o |},
             {| db := st';
                calls := calls w ++
                  [SchemaParse GenerationsCreateSchema body;
                   CheckAccess scope refs;
                   ObservationCreate (createArgs scope p)] |})
        | (inl e, st') =>
            (Throw e,
             {| db := st';
                calls := calls w ++
                  [SchemaParse GenerationsCreateSchema body;
                   CheckAccess scope refs;
                   ObservationCreate (createArgs scope p)] |})
        end
      else
        (Sent {| status := 403; json := accessDenied |},
         logged w [SchemaParse GenerationsCreateSchema body;
                   CheckAccess scope refs])
  end.
Proof.
  unfold postBranch, schema_parse, check_access, observation_create,
    store_call, bind, record, ret, throw, send, logged, createArgs.
  destruct (parse GenerationsCreateSchema body) as [p|]; cbn [db calls];
    [|reflexivity].
  destruct (checkApiAccessScope _ _ (db w)); cbn [negb db calls].
  - destruct (prisma_observation_create _ (db w)) as [[e|o] st'];
      cbn [db calls]; rewrite <- !app_assoc; reflexivity.
  - rewrite <- !app_assoc; reflexivity.
Qed.

(** The runs of the PATCH branch, case by case. *)
Lemma patchBranch_run (scope : Scope) (body : value) (w : World Store) :
  patchBranch scope body w =
  match parse GenerationPatchSchema body with
  | None =>
      (Throw ZodError, logged w [SchemaParse GenerationPatchSchema body])
  | Some p =>
      if checkApiAccessScope scope [patchRef p] (db w) then
        match prisma_observation_update (updateArgs p) (db w) with
        | (inr o, st') =>
            (Sent {| status := 201; json := o |},
             {| db := st';
                calls := calls w ++
                  [SchemaParse GenerationPatchSchema body;
                   CheckAccess scope [patchRef p];
                   ObservationUpdate (updateArgs p)] |})
        | (inl e, st') =>
            (Throw e,
             {| db := st';
                calls := calls w ++
                  [SchemaParse GenerationPatchSchema body;
                   CheckAccess scope [patchRef p];
                   ObservationUpdate (updateArgs p)] |})
        end
      else
        (Sent {| status := 403; json := accessDenied |},
         logged w [SchemaParse GenerationPatchSchema body;
                   CheckAccess scope [patchRef p]])
  end.
Proof.
  unfold patchBranch, schema_parse, check_access, observation_update,
    store_call, bind, record, ret, throw, send, logged, updateArgs, patchRef.
  destruct (parse GenerationPatchSchema body) as [p|]; cbn [db calls];
    [|reflexivity].
  destruct (checkApiAccessScope _ _ (db w)); cbn [negb db calls].
  - destruct (prisma_observation_update _ (db w)) as [[e|o] st'];
      cbn [db calls]; rewrite <- !app_assoc; reflexivity.
  - rewrite <- !app_assoc; reflexivity.
Qed.

(** Line 63: every method other than POST is answered at once. *)
Lemma run_other_method (req : Request) (st : Store) :
  method req <> "POST" ->
  run req st = (Sent methodNotAllowed, {| db := st; calls := [RunMiddleware] |}).
Proof.
  intros Hm. unfold run, handler, bind, record, send. cbn [db calls app].
  destruct (String.eqb_spec (method req) "POST"); [contradiction|].
  reflexivity.
Qed.

(** Lines 68-75. *)
Lemma run_invalid_key (req : Request) (st : Store) (error : string) :
  method req = "POST" ->
  verifyAuthHeaderAndReturnScope (authorization req) st = InvalidKey error ->
  run req st =
  (Sent {| status := 401;
           json := VObj [("success", VBool false); ("message", VStr error)] |},
   {| db := st; calls := [RunMiddleware; VerifyAuth (authorization req)] |}).
Proof.
  intros Hm Ha.
  unfold run, handler, verify_auth, bind, record, send.
  rewrite Hm. cbn. rewrite Ha. reflexivity.
Qed.

(** Lines 68-70, for a credential check that throws: the error is not
    caught and no response is sent. *)
Lemma run_rejected (req : Request) (st : Store) (message : string) :
  method req = "POST" ->
  verifyAuthHeaderAndReturnScope (authorization req) st = Rejected message ->
  run req st =
  (Throw message,
   {| db := st; calls := [RunMiddleware; VerifyAuth (authorization req)] |}).
Proof.
  intros Hm Ha.
  unfold run, handler, verify_auth, bind, record, throw.
  rewrite Hm. cbn. rewrite Ha. reflexivity.
Qed.

(** Lines 78-160. *)
Lemma run_post (req : Request) (st : Store) (scope : Scope) :
  method req = "POST" ->
  verifyAuthHeaderAndReturnScope (authorization req) st = ValidKey scope ->
  run req st =
  try_catch (postBranch scope (body req))
    (fun errorMessage => send 400 (invalidRequest errorMessage))
    {| db := st; calls := [RunMiddleware; VerifyAuth (authorization req)] |}.
Proof.
  intros Hm Ha.
  unfold run, handler, verify_auth, bind, record.
  rewrite Hm. cbn. rewrite Ha. reflexivity.
Qed.

End Runs.

Section PostRuns.

Context {Store : Type} {C : Collaborators Store}.

Variables (req : Request) (st : Store) (scope : Scope).
Hypothesis Hmethod : method req = "POST".
Hypothesis Hkey :
  verifyAuthHeaderAndReturnScope (authorization req) st = ValidKey scope.

(** A POST request with a valid key: all the runs of the handler. *)
Lemma run_post_cases :
  run req st =
  match parse GenerationsCreateSchema (body req) with
  | None =>
      (Sent {| status := 400; json := invalidRequest ZodError |},
       {| db := st; calls := parsedCalls req |})
  | Some p =>
      let refs := createRefs (get p "traceId") (get p "parentObservationId") in
      if checkApiAccessScope scope refs st then
        match prisma_observation_create (createArgs scope p) st with
        | (inr o, st') =>
            (Sent {| status := 201; json := o |},
             {| db := st';
                calls := parsedCalls req ++ [CheckAccess scope refs;
                                    ObservationCreate (createArgs scope p)] |})
        | (inl e, st') =>
            (Sent {| status := 400; json := invalidRequest e |},
             {| db := st';
                calls := parsedCalls req ++ [CheckAccess scope refs;
                                    ObservationCreate (createArgs scope p)] |})
        end
      else
        (Sent {| status := 403; json := accessDenied |},
         {| db := st; calls := parsedCalls req ++ [CheckAccess scope refs] |})
  end.
Proof.
  rewrite (run_post req st scope Hmethod Hkey).
  unfold try_catch. rewrite postBranch_run. unfold logged, parsedCalls, send.
  cbn [db calls app].
  destruct (parse GenerationsCreateSchema (body req)) as [p|]; [|reflexivity].
  cbv zeta.
  destruct (checkApiAccessScope scope _ st); [|reflexivity].
  destruct (prisma_observation_create _ st) as [[e|o] st']; reflexivity.
Qed.

(** The store is asked to create at most what [createData] builds. *)
Lemma post_create_call (args : value) :
  In (ObservationCreate args) (calls_of req st) ->
  exists p,
    parse GenerationsCreateSchema (body req) = Some p /\
    checkApiAccessScope scope
      (createRefs (get p "traceId") (get p "parentObservationId")) st = true /\
    args = createArgs scope p.
Proof.
  unfold calls_of. rewrite run_post_cases. unfold parsedCalls.
  destruct (parse GenerationsCreateSchema (body req)) as [p|].
  - cbv zeta.
    destruct (checkApiAccessScope scope _ st) eqn:Ea.
    + destruct (prisma_observation_create _ st) as [[e|o] st'];
        cbn [snd calls app In]; intros H;
        repeat (destruct H as [H|H]; try discriminate H);
        try contradiction; injection H as <-; eauto.
    + cbn [snd calls app In]. intros H.
      repeat (destruct H as [H|H]; try discriminate H). contradiction.
  - cbn [snd calls In]. intros H.
    repeat (destruct H as [H|H]; try discriminate H). contradiction.
Qed.

End PostRuns.

Section Calls.

Context {Store : Type} {C : Collaborators Store}.

(** Whatever the request, a create call of the handler carries the data
    built from the parsed body of a POST request with a valid key. *)
Lemma create_call_inv (req : Request) (st : Store) (args : value) :
  In (ObservationCreate args) (calls_of req st) ->
  exists scope p,
    method req = "POST" /\
    verifyAuthHeaderAndReturnScope (authorization req) st = ValidKey scope /\
    parse GenerationsCreateSchema (body req) = Some p /\
    checkApiAccessScope scope
      (createRefs (get p "traceId") (get p "parentObservationId")) st = true /\
    args = createArgs scope p.
Proof.
  intros H.
  destruct (string_dec (method req) "POST") as [Hm|Hm].
  - destruct (verifyAuthHeaderAndReturnScope (authorization req) st)
      as [scope|error|message] eqn:Ha.
    + destruct (post_create_call req st scope Hm Ha args H) as (p & Hp & Hc & ->).
      exists scope, p. auto.
    + unfold calls_of in H. rewrite (run_invalid_key req st error Hm Ha) in H.
      cbn [snd calls In] in H.
      repeat (destruct H as [H|H]; try discriminate H). contradiction.
    + unfold calls_of in H. rewrite (run_rejected req st message Hm Ha) in H.
      cbn [snd calls In] in H.
      repeat (destruct H as [H|H]; try discriminate H). contradiction.
  - unfold calls_of in H. rewrite (run_other_method req st Hm) in H.
    cbn [snd calls In] in H.
    repeat (destruct H as [H|H]; try discriminate H). contradiction.
Qed.

(** The handler never asks the store for an update. *)
Lemma no_update_call (req : Request) (st : Store) (args : value) :
  ~ In (ObservationUpdate args) (calls_of req st).
Proof.
  intros H.
  destruct (string_dec (method req) "POST") as [Hm|Hm].
  - destruct (verifyAuthHeaderAndReturnScope (authorization req) st)
      as [scope|error|message] eqn:Ha; unfold calls_of in H.
    + rewrite (run_post_cases req st scope Hm Ha) in H.
      destruct (parse GenerationsCreateSchema (body req)) as [p|].
      * cbv zeta in H.
        destruct (checkApiAccessScope scope _ st);
          [destruct (prisma_observation_create _ st) as [[e|o] st']|];
          cbn [snd calls app In] in H;
          repeat (destruct H as [H|H]; try discriminate H); contradiction.
      * cbn [snd calls In] in H.
        repeat (destruct H as [H|H]; try discriminate H). contradiction.
    + rewrite (run_invalid_key req st error Hm Ha) in H.
      cbn [snd calls In] in H.
      repeat (destruct H as [H|H]; try discriminate H). contradiction.
    + rewrite (run_rejected req st message Hm Ha) in H.
      cbn [snd calls In] in H.
      repeat (destruct H as [H|H]; try discriminate H). contradiction.
  - unfold calls_of in H. rewrite (run_other_method req st Hm) in H.
    cbn [snd calls In] in H.
    repeat (destruct H as [H|H]; try discriminate H). contradiction.
Qed.

(** The calls of the PATCH branch run on its own, from an empty record. *)
Lemma patch_update_call (scope : Scope) (body : value) (st : Store)
  (args : value) :
  In (ObservationUpdate args) (patch_calls scope body st) ->
  exists p,
    parse GenerationPatchSchema body = Some p /\
    checkApiAccessScope scope [patchRef p] st = true /\
    args = updateArgs p.
Proof.
  unfold patch_calls. rewrite patchBranch_run. unfold logged.
  cbn [db calls app].
  destruct (parse GenerationPatchSchema body) as [p|].
  - destruct (checkApiAccessScope scope _ st) eqn:Ea.
    + destruct (prisma_observation_update _ st) as [[e|o] st'];
        cbn [snd calls In]; intros H;
        repeat (destruct H as [H|H]; try discriminate H);
        try contradiction; injection H as <-; eauto.
    + cbn [snd calls In]. intros H.
      repeat (destruct H as [H|H]; try discriminate H). contradiction.
  - cbn [snd calls In]. intros H.
    repeat (destruct H as [H|H]; try discriminate H). contradiction.
Qed.

End Calls.

(** A request whose credential check returns is answered: the handler
    ends by sending a response. *)
Lemma handler_answers {Store : Type} {C : Collaborators Store}
  (req : Request) (st : Store) :
  (forall message,
     verifyAuthHeaderAndReturnScope (authorization req) st
     <> Rejected message) ->
  exists r, response req st = Some r.
Proof.
  intros Hreturns. unfold response.
  destruct (string_dec (method req) "POST") as [Hm|Hm].
  - destruct (verifyAuthHeaderAndReturnScope (authorization req) st)
      as [scope|error|message] eqn:Ha.
    + rewrite (run_post_cases req st scope Hm Ha).
      destruct (parse GenerationsCreateSchema (body req)) as [p|];
        [|simpl; eauto].
      cbv zeta.
      destruct (checkApiAccessScope scope _ st); [|simpl; eauto].
      destruct (prisma_observation_create _ st) as [[e|o] st'];
        simpl; eauto.
    + rewrite (run_invalid_key req st error Hm Ha). simpl; eauto.
    + exfalso. exact (Hreturns message eq_refl).
  - rewrite (run_other_method req st Hm). simpl; eauto.
Qed.

(** ** The examples of section 8 of the specification *)

Example usage_sum :
  get (calculatedUsage
         (VObj [("promptTokens", VNum 10); ("completionTokens", VNum 5)]))
      "totalTokens" = VNum 15.
Proof. reflexivity. Qed.

Example usage_explicit_total :
  get (calculatedUsage
         (VObj [("totalTokens", VNum 7); ("promptTokens", VNum 10);
                ("completionTokens", VNum 5)]))
      "totalTokens" = VNum 7.
Proof. reflexivity. Qed.

Example usage_empty : get (calculatedUsage (VObj [])) "totalTokens" = VUndefined.
Proof. reflexivity. Qed.

Example get_request :
  run (Model.anonymous "GET") Model.st0 =
  (Sent methodNotAllowed, {| db := Model.st0; calls := [RunMiddleware] |}).
Proof. reflexivity. Qed.

Example datetime_accepted :
  isDatetime "2023-05-01T10:00:00.123Z" = true /\
  isDatetime "2023-05-01T10:00:00Z" = true /\
  isDatetime "2023-05-01" = false /\
  isDatetime "" = false.
Proof. repeat split. Qed.

Example empty_traceId_run :
  Model.traces (store_after (Model.post Model.empty_traceId) Model.st0) =
  (Model.traces Model.st0 ++
   [[("id", Model.fresh_id (Model.traces Model.st0)); ("name", VStr "n");
     ("projectId", VStr "acme")]])%list.
Proof. reflexivity. Qed.

(** * The claims *)

(** ** The method guard *)

(** C1.  A PATCH request never reaches the PATCH branch: whatever its
    credential and payload, the guard of line 63 answers 405 "Method not
    allowed", and neither the credential check nor the store is called.
    The claim asks for 201 with the updated observation. *)
Theorem patch_request_method_not_allowed
  {Store : Type} {C : Collaborators Store}
  (header : option string) (payload : value) (st : Store) :
  let req := {| method := "PATCH"; authorization := header; body := payload |} in
  response req st = Some methodNotAllowed /\
  calls_of req st = [RunMiddleware] /\
  store_after req st = st.
Proof.
  intros req. unfold response, calls_of, store_after.
  rewrite (run_other_method req st) by (subst req; simpl; discriminate).
  repeat split.
Qed.

(** ** Usage *)

(** C2, as the claim states it, fails where both counts are present and
    zero: the claim gives the sum 0, the code leaves the total absent. *)
Lemma zero_counts_total_absent :
  parse usageSchema Model.zero_counts = Some Model.zero_counts /\
  truthy (get Model.zero_counts "totalTokens") = false /\
  nullish (get Model.zero_counts "totalTokens") = true /\
  nullish (get Model.zero_counts "promptTokens") = false /\
  nullish (get Model.zero_counts "completionTokens") = false /\
  get (calculatedUsage Model.zero_counts) "totalTokens" = VUndefined /\
  get (calculatedUsage Model.zero_counts) "totalTokens" <>
  add (coalesce (get Model.zero_counts "promptTokens") (VNum 0))
      (coalesce (get Model.zero_counts "completionTokens") (VNum 0)).
Proof.
  repeat split; try reflexivity. discriminate.
Qed.

Lemma get_assign_single (o : object) (k : string) (v : value) :
  get (VObj (assign o [(k, v)])) k = v.
Proof.
  unfold assign. simpl. now rewrite lookup_set_same.
Qed.

Lemma usage_field_number (raw u : value) (k : string) :
  parse usageSchema raw = Some u ->
  In k ["promptTokens"; "completionTokens"; "totalTokens"] ->
  get u k = get raw k /\ (nullish (get u k) = true \/ exists n, get u k = VNum n).
Proof.
  intros Hp Hk.
  assert (H : parse (ZNullish ZNumber) (get raw k) = Some (get u k)).
  { apply (parse_object_get _ _ _ _ _ NoDup_usage_shape Hp).
    simpl in Hk. simpl. intuition (subst; auto). }
  apply parse_nullish_number in H. destruct H as [E H].
  rewrite E. auto.
Qed.

(** Lines 114-115 read case by case: [!t && (p || c)] is truthy when [t] is
    falsy and one of [p], [c] is truthy. *)
Lemma total_by_cases (t p c sum : value) :
  (if truthy (and (not t) (or p c)) then sum else t) =
  if truthy t then t
  else if truthy p || truthy c then sum else t.
Proof.
  unfold and, not, or. cbn [truthy].
  destruct (truthy t) eqn:Et; cbn [negb].
  - cbn [truthy]. reflexivity.
  - destruct (truthy p) eqn:Ep; cbn [orb].
    + now rewrite Ep.
    + reflexivity.
Qed.

(** Line 116 on counts that passed the schema: each is a number, or counts
    as 0. *)
Lemma sum_of_counts (p c : value) :
  nullish p = true \/ (exists n, p = VNum n) ->
  nullish c = true \/ (exists n, c = VNum n) ->
  add (coalesce p (VNum 0)) (coalesce c (VNum 0)) =
  VNum (number p + number c).
Proof.
  intros [Hp | [np ->]] [Hc | [nc ->]];
    try (destruct p; try discriminate Hp);
    try (destruct c; try discriminate Hc);
    reflexivity.
Qed.

(** C2, amended.  For a usage [u] that passed the schema, the total of the
    derived usage is [u.totalTokens] when that is a number other than 0;
    otherwise the sum [(u.promptTokens ?? 0) + (u.completionTokens ?? 0)]
    when one of the two counts is a number other than 0; otherwise
    [u.totalTokens] as it was supplied (absent, null or 0).  Where [u] is
    absent the derived usage is absent. *)
Theorem calculatedUsage_total (u : value) :
  nullish u = true \/ (exists raw, parse usageSchema raw = Some u) ->
  if nullish u then calculatedUsage u = VUndefined
  else
    get (calculatedUsage u) "totalTokens" =
    if truthy (get u "totalTokens") then get u "totalTokens"
    else if truthy (get u "promptTokens") || truthy (get u "completionTokens")
         then VNum (number (get u "promptTokens") +
                    number (get u "completionTokens"))
         else get u "totalTokens".
Proof.
  intros [Hn | [raw Hp]].
  - rewrite Hn. destruct u; try discriminate; reflexivity.
  - destruct (usage_field_number raw _ "promptTokens" Hp) as [_ Hpt];
      [simpl; auto|].
    destruct (usage_field_number raw _ "completionTokens" Hp) as [_ Hct];
      [simpl; auto|].
    destruct (parse_object_inv _ _ _ Hp) as (input & o & -> & -> & _).
    cbn [nullish]. unfold calculatedUsage. cbn [truthy spread].
    rewrite get_assign_single, total_by_cases.
    now rewrite (sum_of_counts _ _ Hpt Hct).
Qed.

Lemma calculatedUsage_total_witness :
  get (calculatedUsage Model.ten_and_five) "totalTokens" = VNum 15.
Proof.
  exact (calculatedUsage_total Model.ten_and_five
           (or_intror (ex_intro _ Model.ten_and_five eq_refl))).
Defined.

(** The sum of line 116 is the sum of doubles: above 2^53 it is rounded,
    and counts with a fraction are accepted and added as they are. *)
Example calculatedUsage_total_rounded :
  parse usageSchema
    (VObj [("promptTokens", VNum 9007199254740992);
           ("completionTokens", VNum 1)])
  = Some (VObj [("promptTokens", VNum 9007199254740992);
                ("completionTokens", VNum 1)]) /\
  get (calculatedUsage
         (VObj [("promptTokens", VNum 9007199254740992);
                ("completionTokens", VNum 1)])) "totalTokens"
  = VNum 9007199254740992 /\
  get (calculatedUsage
         (VObj [("promptTokens", VNum 0.5);
                ("completionTokens", VNum 0.25)])) "totalTokens"
  = VNum 0.75.
Proof.
  repeat split.
Qed.

(** ** The create path *)

Lemma create_field (body p : value) (k : string) (sk : schema) :
  parse GenerationsCreateSchema body = Some p ->
  In (k, sk) match GenerationsCreateSchema with ZObject s => s | _ => [] end ->
  parse sk (get body k) = Some (get p k).
Proof.
  intros Hp Hin.
  exact (parse_object_get _ _ _ _ _ NoDup_create_shape Hp Hin).
Qed.

Lemma create_traceId (body p : value) :
  parse GenerationsCreateSchema body = Some p ->
  get p "traceId" = get body "traceId".
Proof.
  intros Hp.
  apply (parse_nullish_string (get body "traceId")).
  apply (create_field _ _ _ _ Hp). simpl; auto.
Qed.

Lemma create_name (body p : value) :
  parse GenerationsCreateSchema body = Some p ->
  get p "name" = get body "name".
Proof.
  intros Hp.
  apply (parse_nullish_string (get body "name")).
  apply (create_field _ _ _ _ Hp). simpl; auto.
Qed.

Lemma create_parentObservationId (body p : value) :
  parse GenerationsCreateSchema body = Some p ->
  get p "parentObservationId" = get body "parentObservationId".
Proof.
  intros Hp.
  apply (parse_nullish_string (get body "parentObservationId")).
  apply (create_field _ _ _ _ Hp). simpl; auto 20.
Qed.

Lemma create_completion (body p : value) :
  parse GenerationsCreateSchema body = Some p ->
  get p "completion" = get body "completion".
Proof.
  intros Hp.
  apply (parse_nullish_string (get body "completion")).
  apply (create_field _ _ _ _ Hp). simpl; auto 20.
Qed.

Lemma create_prompt (body p : value) :
  parse GenerationsCreateSchema body = Some p ->
  get p "prompt" = get body "prompt".
Proof.
  intros Hp.
  apply (parse_nullish_unknown (get body "prompt")).
  apply (create_field _ _ _ _ Hp). simpl; auto 20.
Qed.

Lemma createData_trace (scope : Scope) (p : value) :
  get (createData scope p) "trace" =
  if truthy (get p "traceId")
  then VObj [("connect", VObj [("id", get p "traceId")])]
  else VObj [("create",
              VObj [("name", get p "name");
                    ("project",
                     VObj [("connect",
                            VObj [("id", VStr (projectId scope))])])])].
Proof.
  unfold createData. destruct (truthy (get p "traceId")); reflexivity.
Qed.

Lemma createData_output (scope : Scope) (p : value) :
  get (createData scope p) "output" =
  if truthy (get p "completion")
  then VObj [("completion", get p "completion")] else VUndefined.
Proof.
  unfold createData. destruct (truthy (get p "traceId")); reflexivity.
Qed.

Lemma createData_input (scope : Scope) (p : value) :
  get (createData scope p) "input" = coalesce (get p "prompt") VUndefined.
Proof.
  unfold createData. destruct (truthy (get p "traceId")); reflexivity.
Qed.

Lemma createData_parent (scope : Scope) (p : value) :
  get (createData scope p) "parent" =
  if truthy (get p "parentObservationId")
  then VObj [("connect", VObj [("id", get p "parentObservationId")])]
  else VUndefined.
Proof.
  unfold createData. destruct (truthy (get p "traceId")); reflexivity.
Qed.

(** C6, as the claim states it, fails for the empty completion: it is not
    null, and the built observation has no output. *)
Lemma empty_completion_no_output :
  exists p,
    parse GenerationsCreateSchema Model.empty_completion = Some p /\
    get Model.empty_completion "completion" = VStr "" /\
    nullish (get Model.empty_completion "completion") = false /\
    get (createData Model.acme p) "output" = VUndefined /\
    calls_of (Model.post Model.empty_completion) Model.st0 =
      [RunMiddleware; VerifyAuth (Some "Basic acme-key");
       SchemaParse GenerationsCreateSchema Model.empty_completion;
       CheckAccess Model.acme [];
       ObservationCreate (createArgs Model.acme p)].
Proof.
  eexists. repeat split; reflexivity.
Qed.

(** C6, amended.  In every create call of the handler, the output of the
    built observation is [{completion: c}] exactly when the supplied
    completion [c] is a string other than the empty one, and is unset
    otherwise (completion absent, null or empty); its input is the supplied
    prompt as it is when a prompt other than null is supplied, and is unset
    otherwise. *)
Theorem create_output_and_input
  {Store : Type} {C : Collaborators Store}
  (req : Request) (st : Store) (args : value) :
  In (ObservationCreate args) (calls_of req st) ->
  get (get args "data") "output" =
    (if truthy (get (body req) "completion")
     then VObj [("completion", get (body req) "completion")]
     else VUndefined) /\
  get (get args "data") "input" =
    (if nullish (get (body req) "prompt") then VUndefined
     else get (body req) "prompt").
Proof.
  intros H.
  destruct (create_call_inv req st args H)
    as (scope & p & _ & _ & Hp & _ & ->).
  unfold createArgs. cbn [get lookup String.eqb Ascii.eqb Bool.eqb].
  rewrite createData_output, createData_input.
  rewrite (create_completion _ _ Hp), (create_prompt _ _ Hp).
  split; reflexivity.
Qed.

Lemma create_output_and_input_witness :
  get (get (createArgs Model.acme Model.answered) "data") "output" =
    VObj [("completion", VStr "hello")] /\
  get (get (createArgs Model.acme Model.answered) "data") "input" = VStr "hi".
Proof.
  apply (create_output_and_input (Model.post Model.answered) Model.st0).
  vm_compute. do 4 right. left. reflexivity.
Defined.

(** ** The credential *)

(** C8.  A request whose credential is invalid or missing: sent as POST
    it is answered 401 with the error of the credential check, and the
    handler has then called nothing but the middleware and the credential
    check (no schema parse, no access check, no create, no update, the store
    as it was); sent as PATCH it is answered 405 by the method guard of
    line 63, which comes before the credential check of lines 68-75, and not
    the 401 of the claim. *)
Theorem invalid_credential_answer
  {Store : Type} {C : Collaborators Store}
  (header : option string) (payload : value) (st : Store) (error : string) :
  verifyAuthHeaderAndReturnScope header st = InvalidKey error ->
  response {| method := "POST"; authorization := header; body := payload |} st
    = Some (unauthenticated error) /\
  calls_of {| method := "POST"; authorization := header; body := payload |} st
    = [RunMiddleware; VerifyAuth header] /\
  store_after {| method := "POST"; authorization := header; body := payload |}
    st = st /\
  response {| method := "PATCH"; authorization := header; body := payload |} st
    = Some methodNotAllowed /\
  calls_of {| method := "PATCH"; authorization := header; body := payload |} st
    = [RunMiddleware] /\
  store_after {| method := "PATCH"; authorization := header; body := payload |}
    st = st.
Proof.
  intros Ha. unfold response, calls_of, store_after.
  rewrite (run_invalid_key
             {| method := "POST"; authorization := header; body := payload |}
             st error eq_refl Ha).
  rewrite (run_other_method
             {| method := "PATCH"; authorization := header; body := payload |}
             st) by (simpl; discriminate).
  repeat split.
Qed.

Lemma invalid_credential_answer_witness :
  response {| method := "POST"; authorization := None;
              body := Model.name_foo |} Model.st0
    = Some (unauthenticated "No authorization header") /\
  response {| method := "PATCH"; authorization := None;
              body := Model.name_foo |} Model.st0
    = Some methodNotAllowed.
Proof.
  destruct (invalid_credential_answer (C:=Model.collaborators)
              None Model.name_foo Model.st0 "No authorization header"
              eq_refl)
    as (H1 & _ & _ & H4 & _).
  split; [exact H1 | exact H4].
Defined.

(** ** The empty trace id *)

(** The calls of a create request whose [traceId] is the empty string:
    the access-scope check gets no trace reference (only the parent
    observation, when there is one), and the create call asks for a new
    trace under the project of the caller, named by the request, instead of
    a connection to a trace of the empty id. *)
Lemma empty_traceId_as_omitted
  {Store : Type} {C : Collaborators Store}
  (req : Request) (st : Store) (scope : Scope) (p : value) :
  method req = "POST" ->
  verifyAuthHeaderAndReturnScope (authorization req) st = ValidKey scope ->
  parse GenerationsCreateSchema (body req) = Some p ->
  get (body req) "traceId" = VStr "" ->
  let refs := createRefs VUndefined (get (body req) "parentObservationId") in
  (forall r, In r refs -> get r "type" = VStr "observation") /\
  calls_of req st =
    ([RunMiddleware; VerifyAuth (authorization req);
      SchemaParse GenerationsCreateSchema (body req);
      CheckAccess scope refs]
     ++ if checkApiAccessScope scope refs st
        then [ObservationCreate (createArgs scope p)] else [])%list /\
  get (get (createArgs scope p) "data") "trace" =
    VObj [("create",
           VObj [("name", get (body req) "name");
                 ("project",
                  VObj [("connect",
                         VObj [("id", VStr (projectId scope))])])])].
Proof.
  intros Hm Ha Hp Ht refs.
  assert (Hrefs : createRefs (get p "traceId") (get p "parentObservationId")
                  = refs).
  { rewrite (create_traceId _ _ Hp), (create_parentObservationId _ _ Hp), Ht.
    reflexivity. }
  repeat split.
  - subst refs. unfold createRefs. cbn [truthy app].
    destruct (truthy (get (body req) "parentObservationId"));
      intros r Hr; simpl in Hr; [destruct Hr as [<-|Hr]|];
      try contradiction; reflexivity.
  - unfold calls_of. rewrite (run_post_cases req st scope Hm Ha), Hp.
    cbv zeta. rewrite Hrefs.
    destruct (checkApiAccessScope scope refs st);
      [destruct (prisma_observation_create _ st) as [[e|o] st']|];
      reflexivity.
  - unfold createArgs. cbn [get lookup String.eqb Ascii.eqb Bool.eqb].
    rewrite createData_trace, (create_traceId _ _ Hp), Ht,
      (create_name _ _ Hp).
    reflexivity.
Qed.

(** ** The patch merge *)

Lemma NoDup_keys_set (k : string) (v : value) (o : object) :
  NoDup (keys o) -> NoDup (keys (set k v o)).
Proof.
  induction o as [|[k' v'] r IH]; simpl; intros Hnd.
  - constructor; [tauto | constructor].
  - inversion Hnd as [|? ? Hnotin Hnd']; subst.
    destruct (String.eqb_spec k k') as [->|Hne]; simpl.
    + now constructor.
    + constructor; [|now apply IH].
      intros Hin. apply keys_set in Hin. destruct Hin; congruence.
Qed.

Lemma NoDup_keys_assign (b a : object) :
  NoDup (keys a) -> NoDup (keys (assign a b)).
Proof.
  unfold assign. revert a.
  induction b as [|[k v] r IH]; intros a Hnd; simpl.
  - exact Hnd.
  - apply IH. now apply NoDup_keys_set.
Qed.

Lemma patchData_eq (p : value) :
  patchData p = VObj (assign (contentFields p) (elidedFields p)).
Proof. reflexivity. Qed.

Lemma lookup_elidedFields (p : value) (k : string) :
  NoDup (keys (spread p)) ->
  lookup k (elidedFields p) =
  match lookup k (spread p) with
  | Some v =>
      if negb (existsb (String.eqb k) taken) && negb (nullish v)
      then Some v else None
  | None => None
  end.
Proof.
  intros Hnd. unfold elidedFields, patchFields, rest, entries.
  cbn [spread].
  rewrite lookup_filter by (now apply NoDup_keys_filter).
  rewrite lookup_filter by assumption.
  destruct (lookup k (spread p)) as [v|]; [|reflexivity].
  cbn [fst snd]. fold taken.
  destruct (negb (existsb (String.eqb k) taken)); reflexivity.
Qed.

Lemma NoDup_elidedFields (p : value) :
  NoDup (keys (spread p)) -> NoDup (keys (elidedFields p)).
Proof.
  intros Hnd. unfold elidedFields, patchFields, rest, entries.
  cbn [spread]. now do 2 apply NoDup_keys_filter.
Qed.

(** What the update data holds under a key: the elided field of that name
    when there is one, else the content field of that name. *)
Lemma lookup_patchData (p : value) (k : string) :
  NoDup (keys (spread p)) ->
  lookup k (spread (patchData p)) =
  match lookup k (elidedFields p) with
  | Some v => Some v
  | None => lookup k (contentFields p)
  end.
Proof.
  intros Hnd. rewrite patchData_eq. cbn [spread].
  apply lookup_assign. now apply NoDup_elidedFields.
Qed.

Lemma NoDup_patchData (p : value) : NoDup (keys (spread (patchData p))).
Proof.
  rewrite patchData_eq. cbn [spread]. apply NoDup_keys_assign.
  simpl. repeat (constructor; [simpl; intuition discriminate|]). constructor.
Qed.

Lemma patch_field (body p : value) (k : string) (sk : schema) :
  parse GenerationPatchSchema body = Some p ->
  In (k, sk) match GenerationPatchSchema with ZObject s => s | _ => [] end ->
  parse sk (get body k) = Some (get p k).
Proof.
  intros Hp Hin.
  exact (parse_object_get _ _ _ _ _ NoDup_patch_shape Hp Hin).
Qed.

Lemma patch_NoDup (body p : value) :
  parse GenerationPatchSchema body = Some p -> NoDup (keys (spread p)).
Proof.
  intros Hp. exact (parse_object_NoDup _ _ _ NoDup_patch_shape Hp).
Qed.

Lemma patch_undeclared (body p : value) (k : string) :
  parse GenerationPatchSchema body = Some p ->
  ~ In k (declared
            match GenerationPatchSchema with ZObject s => s | _ => [] end) ->
  lookup k (spread p) = None.
Proof.
  intros Hp Hk.
  pose proof (parse_object_strip _ _ _ k Hp Hk) as H.
  unfold has_key in H. destruct (lookup k (spread p)); congruence.
Qed.

(** The parsed value of a field is the supplied value. *)
Lemma patch_field_supplied (body p : value) (k : string) :
  parse GenerationPatchSchema body = Some p ->
  In k (elided ++ ["endTime"; "prompt"; "completion"])%list ->
  get p k = parsed_field k (get body k).
Proof.
  intros Hp Hk. simpl in Hk.
  repeat (destruct Hk as [<-|Hk]); try contradiction;
    unfold parsed_field; cbn [String.eqb Ascii.eqb Bool.eqb];
    fold (parsed_field "modelParameters" (get body "modelParameters")).
  - apply (parse_nullish_string (get body "name")).
    apply (patch_field _ _ _ _ Hp); simpl; auto 20.
  - apply (parse_nullish_string (get body "model")).
    apply (patch_field _ _ _ _ Hp); simpl; auto 20.
  - apply (parsed_modelParameters (get body "modelParameters")).
    apply (patch_field _ _ _ _ Hp); simpl; auto 20.
  - apply (parse_nullish_unknown (get body "metadata")).
    apply (patch_field _ _ _ _ Hp); simpl; auto 20.
  - apply (parse_nullish_enum ObservationLevel (get body "level")).
    apply (patch_field _ _ _ _ Hp); simpl; auto 20.
  - apply (parse_nullish_string (get body "statusMessage")).
    apply (patch_field _ _ _ _ Hp); simpl; auto 20.
  - apply (parse_nullish_datetime (get body "endTime")).
    apply (patch_field _ _ _ _ Hp); simpl; auto 20.
  - apply (parse_nullish_unknown (get body "prompt")).
    apply (patch_field _ _ _ _ Hp); simpl; auto 20.
  - apply (parse_nullish_string (get body "completion")).
    apply (patch_field _ _ _ _ Hp); simpl; auto 20.
Qed.

Lemma get_lookup (o : object) (k : string) (v : value) :
  get (VObj o) k = v -> v <> VUndefined -> lookup k o = Some v.
Proof.
  simpl. destruct (lookup k o); intros <- H; congruence.
Qed.

(** An elided field in the update data: there with the parsed value of
    the supplied one, or not there at all. *)
Lemma patchData_elided (body p : value) (k : string) :
  parse GenerationPatchSchema body = Some p ->
  In k elided ->
  lookup k (spread (patchData p)) =
  if nullish (get body k) then None
  else Some (parsed_field k (get body k)).
Proof.
  intros Hp Hk.
  pose proof (patch_NoDup _ _ Hp) as Hnd.
  assert (Hs : get p k = parsed_field k (get body k)).
  { apply (patch_field_supplied _ _ _ Hp). apply in_or_app. now left. }
  rewrite <- (nullish_parsed_field k (get body k)).
  rewrite (lookup_patchData _ _ Hnd), (lookup_elidedFields _ _ Hnd).
  assert (Ht : existsb (String.eqb k) taken = false).
  { simpl in Hk. repeat (destruct Hk as [<-|Hk]); try contradiction;
      reflexivity. }
  assert (Hc : lookup k (contentFields p) = None).
  { simpl in Hk. repeat (destruct Hk as [<-|Hk]); try contradiction;
      reflexivity. }
  rewrite Ht, Hc. cbn [negb andb]. rewrite <- Hs.
  destruct (parse_object_inv _ _ _ Hp) as (input & o & _ & -> & _).
  cbn [spread get].
  destruct (lookup k o) as [v|]; [|reflexivity].
  destruct (nullish v); reflexivity.
Qed.

(** A content field in the update data is the one of [contentFields]. *)
Lemma patchData_content (body p : value) (k : string) :
  parse GenerationPatchSchema body = Some p ->
  In k ["endTime"; "input"; "output"; "usage"] ->
  lookup k (spread (patchData p)) = lookup k (contentFields p).
Proof.
  intros Hp Hk.
  pose proof (patch_NoDup _ _ Hp) as Hnd.
  rewrite (lookup_patchData _ _ Hnd), (lookup_elidedFields _ _ Hnd).
  simpl in Hk. destruct Hk as [<-|[<-|[<-|[<-|[]]]]].
  - destruct (lookup "endTime" (spread p)); reflexivity.
  - rewrite (patch_undeclared body p "input" Hp); [reflexivity|].
    simpl. intuition discriminate.
  - rewrite (patch_undeclared body p "output" Hp); [reflexivity|].
    simpl. intuition discriminate.
  - destruct (lookup "usage" (spread p)); reflexivity.
Qed.

(** A key that is neither a content field nor declared by the schema is not
    in the update data. *)
Lemma patchData_undeclared (body p : value) (k : string) :
  parse GenerationPatchSchema body = Some p ->
  ~ In k (declared
            match GenerationPatchSchema with ZObject s => s | _ => [] end) ->
  ~ In k ["endTime"; "input"; "output"; "usage"] ->
  lookup k (spread (patchData p)) = None.
Proof.
  intros Hp Hk Hc.
  pose proof (patch_NoDup _ _ Hp) as Hnd.
  rewrite (lookup_patchData _ _ Hnd), (lookup_elidedFields _ _ Hnd).
  rewrite (patch_undeclared body p k Hp Hk).
  apply lookup_None_iff. exact Hc.
Qed.

Lemma lookup_carried (data : value) (k : string) :
  NoDup (keys (spread data)) ->
  lookup k (Model.carried data) =
  match lookup k (spread data) with
  | Some VUndefined => None
  | other => other
  end.
Proof.
  intros Hnd. unfold Model.carried. rewrite lookup_filter by assumption.
  destruct (lookup k (spread data)) as [[]|]; reflexivity.
Qed.

(** A column of the record after a patch: the value the update data
    carries for it, else the stored value. *)
Lemma lookup_patched (args : value) (row : object) (k : string) :
  NoDup (keys (spread (get args "data"))) ->
  lookup k (Model.patched args row) =
  match lookup k (spread (get args "data")) with
  | Some VUndefined | None => lookup k row
  | Some v => Some v
  end.
Proof.
  intros Hnd. unfold Model.patched.
  rewrite lookup_assign
    by (unfold Model.carried; now apply NoDup_keys_filter).
  rewrite (lookup_carried _ _ Hnd).
  destruct (lookup k (spread (get args "data"))) as [[]|]; reflexivity.
Qed.

Lemma updateArgs_data (p : value) : get (updateArgs p) "data" = patchData p.
Proof. reflexivity. Qed.

(** The empty completion in the PATCH block: it is present in the payload,
    and the update data carries no output. *)
Lemma emptied_completion_not_forwarded :
  exists p,
    parse GenerationPatchSchema Model.emptied = Some p /\
    has_key "completion" (spread Model.emptied) = true /\
    nullish (get Model.emptied "completion") = false /\
    patch_calls Model.acme Model.emptied Model.st0 =
      [SchemaParse GenerationPatchSchema Model.emptied;
       CheckAccess Model.acme [patchRef p];
       ObservationUpdate (updateArgs p)] /\
    carries (get (updateArgs p) "data") "output" = false.
Proof.
  eexists. repeat split; reflexivity.
Qed.

(** X22.  In every update call of the PATCH block: [endTime] is
    forwarded, as a date, whenever the payload supplies one; [input] is the
    supplied prompt whenever that is not null, the empty prompt included;
    [usage] is always forwarded, computed from the supplied usage, the empty
    usage included; [output] is the wrapped completion only when the
    completion is a string other than the empty one, and is not forwarded
    for an empty completion. *)
Theorem patch_content_forwarded
  {Store : Type} {C : Collaborators Store}
  (scope : Scope) (body : value) (st : Store) (args : value) :
  In (ObservationUpdate args) (patch_calls scope body st) ->
  get (get args "data") "endTime" =
    (if nullish (get body "endTime") then VUndefined
     else newDate (get body "endTime")) /\
  carries (get args "data") "endTime" = negb (nullish (get body "endTime")) /\
  get (get args "data") "input" =
    (if nullish (get body "prompt") then VUndefined else get body "prompt") /\
  get (get args "data") "output" =
    (if truthy (get body "completion")
     then VObj [("completion", get body "completion")] else VUndefined) /\
  carries (get args "data") "usage" = true /\
  exists u, parse usageSchema (get body "usage") = Some u /\
            get (get args "data") "usage" = calculatedUsage u.
Proof.
  intros H.
  destruct (patch_update_call scope body st args H) as (p & Hp & _ & ->).
  rewrite updateArgs_data.
  assert (Hget : forall k, In k ["endTime"; "input"; "output"; "usage"] ->
                 get (patchData p) k = get (VObj (contentFields p)) k).
  { intros k Hk. pose proof (patchData_content body p k Hp Hk) as E.
    rewrite patchData_eq in *. cbn [spread] in E. cbn [get].
    now rewrite E. }
  assert (He : get p "endTime" = get body "endTime").
  { exact (patch_field_supplied body p "endTime" Hp
             ltac:(simpl; auto 20)). }
  assert (Hpr : get p "prompt" = get body "prompt").
  { exact (patch_field_supplied body p "prompt" Hp
             ltac:(simpl; auto 20)). }
  assert (Hco : get p "completion" = get body "completion").
  { exact (patch_field_supplied body p "completion" Hp
             ltac:(simpl; auto 20)). }
  assert (Hend : parse (ZNullish ZDatetime) (get body "endTime")
                 = Some (get p "endTime")).
  { apply (patch_field _ _ _ _ Hp). simpl; auto 20. }
  assert (Hus : parse usageSchema (get body "usage") = Some (get p "usage")).
  { apply (patch_field _ _ _ _ Hp). simpl; auto 20. }
  unfold carries.
  rewrite !Hget by (simpl; auto).
  cbn [get lookup contentFields String.eqb Ascii.eqb Bool.eqb].
  rewrite He, Hpr, Hco.
  apply parse_nullish_datetime in Hend. destruct Hend as [_ Hend].
  assert (Hdate : (if truthy (get body "endTime")
                   then newDate (get body "endTime") else VUndefined)
                  = if nullish (get body "endTime") then VUndefined
                    else newDate (get body "endTime")).
  { destruct Hend as [Hn | (x & -> & Hx)].
    - rewrite Hn. destruct (get body "endTime"); try discriminate;
        reflexivity.
    - destruct x; [discriminate Hx | reflexivity]. }
  rewrite Hdate.
  repeat split.
  - destruct Hend as [-> | (x & -> & Hx)]; reflexivity.
  - destruct (parse_object_inv _ _ _ Hus) as (input & o & _ & -> & _).
    reflexivity.
  - exists (get p "usage"). split; [exact Hus | reflexivity].
Qed.

Lemma patch_content_forwarded_witness :
  exists args,
    In (ObservationUpdate args)
       (patch_calls Model.acme Model.finished Model.st0) /\
    get (get args "data") "endTime" = VDate "2023-05-01T10:00:00Z" /\
    get (get args "data") "input" = VStr "" /\
    get (get args "data") "output" = VObj [("completion", VStr "done")] /\
    carries (get args "data") "usage" = true.
Proof.
  eexists. split.
  - vm_compute. do 2 right. left. reflexivity.
  - match goal with
    | |- context [get (get ?a "data") "endTime"] =>
        pose proof (patch_content_forwarded
                      Model.acme Model.finished Model.st0 a) as H
    end.
    destruct H as (H1 & _ & H3 & H4 & H5 & _).
    + vm_compute. do 2 right. left. reflexivity.
    + repeat split; assumption.
Defined.

(** X23.  In every update call of the PATCH block, each of name, model,
    modelParameters, metadata, level and statusMessage is in the update data
    when its supplied value is neither null nor absent, and is not in the
    update data otherwise.  When it is there it holds the supplied value, for
    modelParameters the supplied record without an own key [__proto__]. *)
Theorem patch_elides_null_fields
  {Store : Type} {C : Collaborators Store}
  (scope : Scope) (body : value) (st : Store) (args : value) (k : string) :
  In (ObservationUpdate args) (patch_calls scope body st) ->
  In k elided ->
  lookup k (spread (get args "data")) =
    (if nullish (get body k) then None
     else Some (parsed_field k (get body k))).
Proof.
  intros H Hk.
  destruct (patch_update_call scope body st args H) as (p & Hp & _ & ->).
  rewrite updateArgs_data. exact (patchData_elided body p k Hp Hk).
Qed.

Lemma patch_elides_null_fields_witness :
  (exists args,
     In (ObservationUpdate args)
        (patch_calls Model.acme Model.name_null Model.st0) /\
     lookup "name" (spread (get args "data")) = None) /\
  (exists args,
     In (ObservationUpdate args)
        (patch_calls Model.acme Samples.tuned Model.st0) /\
     lookup "modelParameters" (spread (get args "data")) =
       Some (VObj [("temperature", VNum 0.5)])).
Proof.
  split; eexists; (split; [vm_compute; do 2 right; left; reflexivity|]).
  - match goal with
    | |- lookup _ (spread (get ?a _)) = _ =>
        exact (patch_elides_null_fields (C:=Model.collaborators)
                 Model.acme Model.name_null Model.st0 a "name"
                 ltac:(vm_compute; do 2 right; left; reflexivity)
                 ltac:(simpl; auto))
    end.
  - match goal with
    | |- lookup _ (spread (get ?a _)) = _ =>
        exact (patch_elides_null_fields (C:=Model.collaborators)
                 Model.acme Samples.tuned Model.st0 a "modelParameters"
                 ltac:(vm_compute; do 2 right; left; reflexivity)
                 ltac:(simpl; auto))
    end.
Defined.

(** C10.  In every update call of the PATCH branch the update data has none
    of the keys traceId, startTime, parentObservationId and type, whatever
    the payload supplies, and the record after the patch holds the stored
    values of these four. *)
Theorem patch_keeps_undeclared_fields
  {Store : Type} {C : Collaborators Store}
  (scope : Scope) (body : value) (st : Store) (args : value) (k : string) :
  In (ObservationUpdate args) (patch_calls scope body st) ->
  In k ["traceId"; "startTime"; "parentObservationId"; "type"] ->
  has_key k (spread (get args "data")) = false /\
  forall row : object,
    get (VObj (Model.patched args row)) k = get (VObj row) k.
Proof.
  intros H Hk.
  destruct (patch_update_call scope body st args H) as (p & Hp & _ & ->).
  assert (E : lookup k (spread (patchData p)) = None).
  { apply (patchData_undeclared body p k Hp);
      simpl in Hk; destruct Hk as [<-|[<-|[<-|[<-|[]]]]];
      simpl; intuition discriminate. }
  split.
  - rewrite updateArgs_data. unfold has_key. now rewrite E.
  - intros row. cbn [get].
    rewrite lookup_patched by (rewrite updateArgs_data; apply NoDup_patchData).
    rewrite updateArgs_data, E. reflexivity.
Qed.

Lemma patch_keeps_undeclared_fields_witness :
  exists args,
    In (ObservationUpdate args)
       (patch_calls Model.acme Model.moved Model.st0) /\
    has_key "traceId" (spread Model.moved) = true /\
    has_key "traceId" (spread (get args "data")) = false /\
    get (VObj (Model.patched args Model.row_acme)) "traceId" = VStr "t-acme".
Proof.
  eexists. split; [vm_compute; do 2 right; left; reflexivity|].
  split; [reflexivity|].
  match goal with
  | |- has_key _ (spread (get ?a _)) = _ /\ _ =>
      destruct (patch_keeps_undeclared_fields
                  Model.acme Model.moved Model.st0 a "traceId") as [H1 H2]
  end.
  - vm_compute. do 2 right. left. reflexivity.
  - simpl. auto.
  - split; [exact H1 | exact (H2 Model.row_acme)].
Defined.

(** ** The store behind the create call *)

Lemma length_filler (n : nat) : String.length (Model.filler n) = n.
Proof.
  induction n as [|n IH]; simpl; [reflexivity | now rewrite IH].
Qed.

(** The id the store chooses is the id of no row of the table. *)
Lemma fresh_id_fresh (rows : list object) :
  Model.find_row (Model.fresh_id rows) rows = None.
Proof.
  unfold Model.find_row.
  match goal with |- find ?f rows = None =>
    destruct (find f rows) as [r|] eqn:E; [|reflexivity] end.
  apply find_some in E. destruct E as [Hin Hid]. exfalso.
  assert (Hle : (Model.id_length r <= list_max (map Model.id_length rows))%nat).
  { pose proof (proj1 (list_max_le (map Model.id_length rows) _)
                      (Nat.le_refl _)) as Hall.
    rewrite Forall_forall in Hall. apply Hall. now apply in_map. }
  unfold Model.fresh_id, Model.same_id in Hid.
  destruct (get (VObj r) "id") as [| | | |s| | |] eqn:Eid; try discriminate.
  apply String.eqb_eq in Hid.
  assert (Hlen : Model.id_length r = String.length s).
  { unfold Model.id_length. now rewrite Eid. }
  rewrite Hlen, Hid, length_filler in Hle. lia.
Qed.

(** The model of [create] on the data of a payload without a trace id. *)
Lemma create_inline_trace (scope : Scope) (p : value) (st : Model.Store) :
  truthy (get p "traceId") = false ->
  (truthy (get p "parentObservationId") = true ->
   Model.find_row (get p "parentObservationId") (Model.observations st)
   <> None) ->
  Model.create (createArgs scope p) st =
  let t := Model.new_trace (Model.traces st) (inlineTrace scope p) in
  let o := Model.new_observation (Model.observations st)
             (Model.fresh_id (Model.traces st))
             (if truthy (get p "parentObservationId")
              then get p "parentObservationId" else VNull)
             (createData scope p) in
  (inr (VObj o),
   {| Model.traces := (Model.traces st ++ [t])%list;
      Model.observations := (Model.observations st ++ [o])%list;
      Model.credentials := Model.credentials st |}).
Proof.
  intros Ht Hparent. unfold Model.create, createArgs.
  cbn [get lookup String.eqb Ascii.eqb Bool.eqb].
  fold (get (createData scope p) "trace").
  fold (get (createData scope p) "parent").
  rewrite createData_trace, createData_parent, Ht.
  destruct (truthy (get p "parentObservationId")).
  - cbn [nullish negb andb get lookup String.eqb Ascii.eqb Bool.eqb].
    destruct (Model.find_row _ (Model.observations st)) eqn:E;
      [|exfalso; now apply Hparent].
    reflexivity.
  - reflexivity.
Qed.

(** An access check that passes has resolved the parent observation. *)
Lemma checkAccess_parent (scope : Scope) (traceId parent : value)
  (st : Model.Store) :
  Model.checkAccess scope (createRefs traceId parent) st = true ->
  truthy parent = true ->
  Model.find_row parent (Model.observations st) <> None.
Proof.
  unfold Model.checkAccess. intros Hc Hp.
  rewrite forallb_forall in Hc.
  specialize (Hc (VObj [("type", VStr "observation"); ("id", parent)])).
  unfold createRefs in Hc. rewrite Hp in Hc.
  assert (Hin : In (VObj [("type", VStr "observation"); ("id", parent)])
                   ((if truthy traceId
                     then [VObj [("type", VStr "trace"); ("id", traceId)]]
                     else []) ++
                    [VObj [("type", VStr "observation"); ("id", parent)]])).
  { apply in_or_app. right. now left. }
  specialize (Hc Hin). unfold Model.owner in Hc.
  cbn [get lookup String.eqb Ascii.eqb Bool.eqb] in Hc.
  destruct (Model.find_row parent (Model.observations st));
    [discriminate | discriminate Hc].
Qed.

(** A reference owned by another project fails the access check. *)
Lemma checkAccess_foreign (scope : Scope) (refs : list value)
  (st : Model.Store) (ref pid : value) :
  In ref refs ->
  Model.owner st ref = Some pid ->
  pid <> VStr (projectId scope) ->
  Model.checkAccess scope refs st = false.
Proof.
  intros Hin Ho Hne. unfold Model.checkAccess.
  destruct (forallb _ refs) eqn:E; [|reflexivity].
  rewrite forallb_forall in E. specialize (E ref Hin).
  rewrite Ho in E. unfold Model.same_id in E.
  destruct pid; try discriminate.
  apply String.eqb_eq in E. subst. contradiction.
Qed.

(** C7.  A create request without a [traceId], with a valid credential, a
    valid payload and a passing access check, is answered 201; the store
    then has one trace more, a trace that was not there, under the project
    of the caller's scope, with the name of the request when there is one
    and no name otherwise; and the created observation, the body of the
    answer, references that trace. *)
Theorem create_without_traceId_creates_trace
  (req : Request) (st : Model.Store) (scope : Scope) (p : value) :
  method req = "POST" ->
  Model.resolveScope (authorization req) st = ValidKey scope ->
  parse GenerationsCreateSchema (body req) = Some p ->
  get (body req) "traceId" = VUndefined ->
  Model.checkAccess scope
    (createRefs VUndefined (get (body req) "parentObservationId")) st = true ->
  exists t o : object,
    response req st = Some {| status := 201; json := VObj o |} /\
    In (ObservationCreate (createArgs scope p)) (calls_of req st) /\
    get (get (createArgs scope p) "data") "trace" =
      VObj [("create", inlineTrace scope p)] /\
    Model.traces (store_after req st) = (Model.traces st ++ [t])%list /\
    Model.find_row (get (VObj t) "id") (Model.traces st) = None /\
    get (VObj t) "projectId" = VStr (projectId scope) /\
    get (VObj t) "name" = coalesce (get (body req) "name") VNull /\
    Model.observations (store_after req st) =
      (Model.observations st ++ [o])%list /\
    get (VObj o) "traceId" = get (VObj t) "id".
Proof.
  intros Hm Ha Hp Ht Hc.
  pose proof (create_traceId _ _ Hp) as Etrace. rewrite Ht in Etrace.
  pose proof (create_parentObservationId _ _ Hp) as Eparent.
  pose proof (create_name _ _ Hp) as Ename.
  assert (Hcreate := create_inline_trace scope p st).
  rewrite Etrace in Hcreate. specialize (Hcreate eq_refl).
  assert (Hparent : truthy (get p "parentObservationId") = true ->
                    Model.find_row (get p "parentObservationId")
                      (Model.observations st) <> None).
  { rewrite Eparent. apply (checkAccess_parent scope VUndefined). exact Hc. }
  specialize (Hcreate Hparent). cbv zeta in Hcreate.
  eexists. eexists.
  unfold response, calls_of, store_after.
  rewrite (run_post_cases (C:=Model.collaborators) req st scope Hm Ha), Hp.
  cbv zeta. rewrite Etrace, Eparent.
  change (checkApiAccessScope scope
            (createRefs VUndefined (get (body req) "parentObservationId")) st)
    with (Model.checkAccess scope
            (createRefs VUndefined (get (body req) "parentObservationId")) st).
  rewrite Hc.
  change (prisma_observation_create (createArgs scope p) st)
    with (Model.create (createArgs scope p) st).
  rewrite Hcreate. cbn [fst snd db calls Model.traces Model.observations].
  split; [reflexivity|].
  split; [apply in_or_app; right; right; left; reflexivity|].
  split.
  { unfold createArgs. cbn [get lookup String.eqb Ascii.eqb Bool.eqb].
    rewrite createData_trace, Etrace. reflexivity. }
  split; [reflexivity|].
  split; [apply fresh_id_fresh|].
  split; [reflexivity|].
  split; [now rewrite <- Ename|].
  split; reflexivity.
Qed.

Lemma create_without_traceId_creates_trace_witness :
  exists t o : object,
    response (Model.post Model.answered) Model.st0 =
      Some {| status := 201; json := VObj o |} /\
    Model.traces (store_after (Model.post Model.answered) Model.st0) =
      (Model.traces Model.st0 ++ [t])%list /\
    get (VObj t) "projectId" = VStr "acme" /\
    get (VObj t) "name" = VStr "n" /\
    get (VObj o) "traceId" = get (VObj t) "id".
Proof.
  destruct (create_without_traceId_creates_trace
              (Model.post Model.answered) Model.st0 Model.acme Model.answered
              eq_refl eq_refl eq_refl eq_refl eq_refl)
    as (t & o & H1 & _ & _ & H4 & _ & H6 & H7 & _ & H9).
  exists t, o. repeat split; assumption.
Defined.

(** C9.  A create request whose [traceId] is the empty string, with a
    valid credential, a valid payload and a passing access check, is treated
    as one without a [traceId]: the access-scope check gets no trace
    reference (only the parent observation, when there is one); the request
    is answered 201; the store then has one trace more, a trace that was not
    there, under the project of the caller's scope and named by the request;
    and the created observation references that trace, not a trace of the
    empty id. *)
Theorem empty_traceId_creates_trace
  (req : Request) (st : Model.Store) (scope : Scope) (p : value) :
  method req = "POST" ->
  Model.resolveScope (authorization req) st = ValidKey scope ->
  parse GenerationsCreateSchema (body req) = Some p ->
  get (body req) "traceId" = VStr "" ->
  Model.checkAccess scope
    (createRefs VUndefined (get (body req) "parentObservationId")) st = true ->
  (forall r,
     In r (createRefs VUndefined (get (body req) "parentObservationId")) ->
     get r "type" = VStr "observation") /\
  calls_of req st =
    [RunMiddleware; VerifyAuth (authorization req);
     SchemaParse GenerationsCreateSchema (body req);
     CheckAccess scope
       (createRefs VUndefined (get (body req) "parentObservationId"));
     ObservationCreate (createArgs scope p)] /\
  exists t o : object,
    response req st = Some {| status := 201; json := VObj o |} /\
    Model.traces (store_after req st) = (Model.traces st ++ [t])%list /\
    Model.find_row (get (VObj t) "id") (Model.traces st) = None /\
    get (VObj t) "projectId" = VStr (projectId scope) /\
    get (VObj t) "name" = coalesce (get (body req) "name") VNull /\
    Model.observations (store_after req st) =
      (Model.observations st ++ [o])%list /\
    get (VObj o) "traceId" = get (VObj t) "id" /\
    get (VObj o) "traceId" <> VStr "".
Proof.
  intros Hm Ha Hp Ht Hc.
  destruct (empty_traceId_as_omitted (C:=Model.collaborators)
              req st scope p Hm Ha Hp Ht) as (Hrefs & Hcalls & _).
  cbv zeta in Hrefs, Hcalls.
  change (checkApiAccessScope scope
            (createRefs VUndefined (get (body req) "parentObservationId")) st)
    with (Model.checkAccess scope
            (createRefs VUndefined (get (body req) "parentObservationId")) st)
    in Hcalls.
  rewrite Hc in Hcalls.
  split; [exact Hrefs|]. split; [exact Hcalls|].
  pose proof (create_traceId _ _ Hp) as Etrace. rewrite Ht in Etrace.
  pose proof (create_parentObservationId _ _ Hp) as Eparent.
  pose proof (create_name _ _ Hp) as Ename.
  assert (Hcreate := create_inline_trace scope p st).
  rewrite Etrace in Hcreate. specialize (Hcreate eq_refl).
  assert (Hparent : truthy (get p "parentObservationId") = true ->
                    Model.find_row (get p "parentObservationId")
                      (Model.observations st) <> None).
  { rewrite Eparent. apply (checkAccess_parent scope VUndefined). exact Hc. }
  specialize (Hcreate Hparent). cbv zeta in Hcreate.
  eexists. eexists.
  unfold response, store_after.
  rewrite (run_post_cases (C:=Model.collaborators) req st scope Hm Ha), Hp.
  cbv zeta. rewrite Etrace, Eparent.
  assert (Erefs : createRefs (VStr "") (get (body req) "parentObservationId")
                  = createRefs VUndefined
                      (get (body req) "parentObservationId"))
    by reflexivity.
  rewrite Erefs.
  change (checkApiAccessScope scope
            (createRefs VUndefined (get (body req) "parentObservationId")) st)
    with (Model.checkAccess scope
            (createRefs VUndefined (get (body req) "parentObservationId")) st).
  rewrite Hc.
  change (prisma_observation_create (createArgs scope p) st)
    with (Model.create (createArgs scope p) st).
  rewrite Hcreate. cbn [fst snd db calls Model.traces Model.observations].
  split; [reflexivity|].
  split; [reflexivity|].
  split; [apply fresh_id_fresh|].
  split; [reflexivity|].
  split; [now rewrite <- Ename|].
  split; [reflexivity|].
  split; [reflexivity|].
  cbn [get lookup Model.new_observation app String.eqb Ascii.eqb Bool.eqb].
  unfold Model.fresh_id. intros E.
  apply (f_equal (fun v => match v with
                           | VStr x => String.length x
                           | _ => O
                           end)) in E.
  rewrite length_filler in E. discriminate E.
Qed.

Lemma empty_traceId_creates_trace_witness :
  calls_of (Model.post Model.empty_traceId) Model.st0 =
    [RunMiddleware; VerifyAuth (Some "Basic acme-key");
     SchemaParse GenerationsCreateSchema Model.empty_traceId;
     CheckAccess Model.acme [];
     ObservationCreate (createArgs Model.acme Model.empty_traceId)] /\
  exists t o : object,
    response (Model.post Model.empty_traceId) Model.st0 =
      Some {| status := 201; json := VObj o |} /\
    Model.traces (store_after (Model.post Model.empty_traceId) Model.st0) =
      (Model.traces Model.st0 ++ [t])%list /\
    get (VObj t) "projectId" = VStr "acme" /\
    get (VObj o) "traceId" = get (VObj t) "id".
Proof.
  destruct (empty_traceId_creates_trace
              (Model.post Model.empty_traceId) Model.st0 Model.acme
              Model.empty_traceId eq_refl eq_refl eq_refl eq_refl eq_refl)
    as (_ & Hcalls & t & o & H1 & H2 & _ & H4 & _ & _ & H7 & _).
  split; [exact Hcalls|].
  exists t, o. repeat split; assumption.
Defined.

(** ** References into another project *)

(** The create half of C3: a create request with a valid credential and a
    valid payload that references a trace or a parent observation of
    another project is answered 403, the store is as it was, and the store
    was asked neither to create nor to update. *)
Lemma create_foreign_reference_forbidden
  (req : Request) (st : Model.Store) (scope : Scope) (p ref pid : value) :
  method req = "POST" ->
  Model.resolveScope (authorization req) st = ValidKey scope ->
  parse GenerationsCreateSchema (body req) = Some p ->
  In ref (createRefs (get p "traceId") (get p "parentObservationId")) ->
  Model.owner st ref = Some pid ->
  pid <> VStr (projectId scope) ->
  response req st = Some {| status := 403; json := accessDenied |} /\
  store_after req st = st /\
  forall args, ~ In (ObservationCreate args) (calls_of req st) /\
               ~ In (ObservationUpdate args) (calls_of req st).
Proof.
  intros Hm Ha Hp Hin Ho Hne.
  pose proof (checkAccess_foreign scope _ st ref pid Hin Ho Hne) as Hc.
  unfold response, calls_of, store_after.
  rewrite (run_post_cases (C:=Model.collaborators) req st scope Hm Ha), Hp.
  cbv zeta.
  change (checkApiAccessScope scope
            (createRefs (get p "traceId") (get p "parentObservationId")) st)
    with (Model.checkAccess scope
            (createRefs (get p "traceId") (get p "parentObservationId")) st).
  rewrite Hc. cbn [fst snd db calls app].
  repeat split; intros H; cbn [In] in H;
    repeat (destruct H as [H|H]; try discriminate H); contradiction.
Qed.

Lemma create_foreign_reference_forbidden_example :
  response (Model.post (VObj [("traceId", VStr "t-other"); ("usage", VObj [])]))
           Model.st0
  = Some {| status := 403; json := accessDenied |} /\
  store_after (Model.post (VObj [("traceId", VStr "t-other");
                                 ("usage", VObj [])])) Model.st0
  = Model.st0.
Proof.
  split; reflexivity.
Qed.

(** C3 at a PATCH request.  The generation [g-other] belongs to the
    project [other], the credential to [acme].  The PATCH branch, run on
    its own, denies access with 403 and calls the store for nothing; the
    handler answers the request 405 at the method guard of line 63 and
    never enters the branch.  The store is as it was either way. *)
Theorem patch_foreign_generation_answer :
  Model.owner Model.st0 (patchRef Model.theirs) = Some (VStr "other") /\
  Model.resolveScope (authorization (Model.patch Model.theirs)) Model.st0
    = ValidKey Model.acme /\
  patchBranch Model.acme Model.theirs {| db := Model.st0; calls := [] |}
    = (Sent {| status := 403; json := accessDenied |},
       {| db := Model.st0;
          calls := [SchemaParse GenerationPatchSchema Model.theirs;
                    CheckAccess Model.acme [patchRef Model.theirs]] |}) /\
  response (Model.patch Model.theirs) Model.st0 = Some methodNotAllowed /\
  store_after (Model.patch Model.theirs) Model.st0 = Model.st0.
Proof.
  repeat split.
Qed.

(** The PATCH branch run on its own on a generation of the caller: the
    answer C1 asks of the handler. *)
Lemma patch_branch_alone_updates :
  fst (patchBranch Model.acme Model.name_foo
         {| db := Model.st0; calls := [] |})
  = Sent {| status := 201;
            json := VObj (Model.patched
                            (updateArgs Model.name_foo) Model.row_acme) |} /\
  get (VObj (Model.patched (updateArgs Model.name_foo) Model.row_acme)) "name"
  = VStr "foo" /\
  response (Model.patch Model.name_foo) Model.st0 = Some methodNotAllowed.
Proof.
  repeat split.
Qed.

(** ** The patch merge at a PATCH request *)

(** C4 at a PATCH request.  The body supplies [endTime], an empty
    [prompt], a [completion] and an empty [usage], with the credential of the
    project that owns the generation.  The PATCH block, run on its own,
    makes an update call that carries all four, and the stored input and
    output are then the empty prompt and the wrapped completion; the handler
    answers the request 405 at the method guard of line 63, makes no update
    call and forwards nothing: the store is as it was, the record still
    without an input and with its null output. *)
Theorem patch_content_never_forwarded :
  Model.resolveScope (authorization (Model.patch Model.finished)) Model.st0
    = ValidKey Model.acme /\
  parse GenerationPatchSchema Model.finished = Some Model.finished /\
  patch_calls Model.acme Model.finished Model.st0 =
    [SchemaParse GenerationPatchSchema Model.finished;
     CheckAccess Model.acme [patchRef Model.finished];
     ObservationUpdate (updateArgs Model.finished)] /\
  get (get (updateArgs Model.finished) "data") "endTime"
    = VDate "2023-05-01T10:00:00Z" /\
  get (get (updateArgs Model.finished) "data") "input" = VStr "" /\
  get (get (updateArgs Model.finished) "data") "output"
    = VObj [("completion", VStr "done")] /\
  get (get (updateArgs Model.finished) "data") "usage"
    = VObj [("totalTokens", VUndefined)] /\
  Model.stored (db (snd (patchBlock Model.acme Model.finished Model.st0)))
    (VStr "g-acme") "input" = Some (VStr "") /\
  Model.stored (db (snd (patchBlock Model.acme Model.finished Model.st0)))
    (VStr "g-acme") "output" = Some (VObj [("completion", VStr "done")]) /\
  response (Model.patch Model.finished) Model.st0 = Some methodNotAllowed /\
  calls_of (Model.patch Model.finished) Model.st0 = [RunMiddleware] /\
  store_after (Model.patch Model.finished) Model.st0 = Model.st0 /\
  Model.stored (store_after (Model.patch Model.finished) Model.st0)
    (VStr "g-acme") "input" = Some VUndefined /\
  Model.stored (store_after (Model.patch Model.finished) Model.st0)
    (VStr "g-acme") "output" = Some VNull.
Proof.
  repeat split.
Qed.

(** C5 at a PATCH request.  The body patches the name of a generation of
    the caller's project to "foo".  The PATCH block, run on its own, answers
    201 and the stored name is then "foo" (and with [name: null] the stored
    name stays "first"); the handler answers the request 405 at the method
    guard of line 63 and the stored name is still "first": nothing is
    overwritten. *)
Theorem patch_name_never_overwritten :
  Model.resolveScope (authorization (Model.patch Model.name_foo)) Model.st0
    = ValidKey Model.acme /\
  Model.stored Model.st0 (VStr "g-acme") "name" = Some (VStr "first") /\
  fst (patchBlock Model.acme Model.name_foo Model.st0)
    = Sent {| status := 201;
              json := VObj (Model.patched (updateArgs Model.name_foo)
                              Model.row_acme) |} /\
  Model.stored (db (snd (patchBlock Model.acme Model.name_foo Model.st0)))
    (VStr "g-acme") "name" = Some (VStr "foo") /\
  Model.stored (db (snd (patchBlock Model.acme Model.name_null Model.st0)))
    (VStr "g-acme") "name" = Some (VStr "first") /\
  response (Model.patch Model.name_foo) Model.st0 = Some methodNotAllowed /\
  calls_of (Model.patch Model.name_foo) Model.st0 = [RunMiddleware] /\
  Model.stored (store_after (Model.patch Model.name_foo) Model.st0)
    (VStr "g-acme") "name" = Some (VStr "first").
Proof.
  repeat split.
Qed.

(** * Further properties of the handler *)

(** ** The answers of a POST request *)

(** X1.  A POST request with a valid key whose body the create schema
    rejects is answered 400 "Invalid request data" with the text of the
    schema error; the access check and the store are not called and the
    store is as it was. *)
Theorem post_invalid_payload
  {Store : Type} {C : Collaborators Store}
  (req : Request) (st : Store) (scope : Scope) :
  method req = "POST" ->
  verifyAuthHeaderAndReturnScope (authorization req) st = ValidKey scope ->
  parse GenerationsCreateSchema (body req) = None ->
  response req st = Some {| status := 400; json := invalidRequest ZodError |} /\
  calls_of req st =
    [RunMiddleware; VerifyAuth (authorization req);
     SchemaParse GenerationsCreateSchema (body req)] /\
  store_after req st = st.
Proof.
  intros Hm Ha Hp. unfold response, calls_of, store_after.
  rewrite (run_post_cases req st scope Hm Ha), Hp. repeat split.
Qed.

Lemma post_invalid_payload_witness :
  response (Model.post Samples.no_usage) Model.st0 =
    Some {| status := 400; json := invalidRequest ZodError |} /\
  calls_of (Model.post Samples.no_usage) Model.st0 =
    [RunMiddleware; VerifyAuth (Some "Basic acme-key");
     SchemaParse GenerationsCreateSchema Samples.no_usage] /\
  store_after (Model.post Samples.no_usage) Model.st0 = Model.st0.
Proof.
  exact (post_invalid_payload (Model.post Samples.no_usage) Model.st0
           Model.acme eq_refl eq_refl eq_refl).
Defined.

(** X2.  When the create call of the persistence client throws, the
    request is answered 400 "Invalid request data" with the message of the
    thrown error, the same answer as for a schema error; the store is left as
    the failed call left it. *)
Theorem post_store_failure
  {Store : Type} {C : Collaborators Store}
  (req : Request) (st st' : Store) (scope : Scope) (p : value)
  (message : string) :
  method req = "POST" ->
  verifyAuthHeaderAndReturnScope (authorization req) st = ValidKey scope ->
  parse GenerationsCreateSchema (body req) = Some p ->
  checkApiAccessScope scope
    (createRefs (get p "traceId") (get p "parentObservationId")) st = true ->
  prisma_observation_create (createArgs scope p) st = (inl message, st') ->
  response req st = Some {| status := 400; json := invalidRequest message |} /\
  In (ObservationCreate (createArgs scope p)) (calls_of req st) /\
  store_after req st = st'.
Proof.
  intros Hm Ha Hp Hc Hs. unfold response, calls_of, store_after.
  rewrite (run_post_cases req st scope Hm Ha), Hp. cbv zeta.
  rewrite Hc, Hs. cbn [fst snd db calls].
  repeat split. apply in_or_app. right. right. left. reflexivity.
Qed.

Lemma post_store_failure_witness :
  response (Model.post Model.answered) Outage.down =
    Some {| status := 400; json := invalidRequest Outage.refused |} /\
  In (ObservationCreate (createArgs Model.acme Model.answered))
     (calls_of (Model.post Model.answered) Outage.down) /\
  store_after (Model.post Model.answered) Outage.down = Outage.down.
Proof.
  exact (post_store_failure (Model.post Model.answered) Outage.down
           Outage.down Model.acme Model.answered Outage.refused
           eq_refl eq_refl eq_refl eq_refl eq_refl).
Defined.

(** X3.  When the access-scope check fails, a POST request with a valid
    key and a valid body is answered 403 "Access denied"; the store is not
    called and is as it was. *)
Theorem post_access_denied
  {Store : Type} {C : Collaborators Store}
  (req : Request) (st : Store) (scope : Scope) (p : value) :
  method req = "POST" ->
  verifyAuthHeaderAndReturnScope (authorization req) st = ValidKey scope ->
  parse GenerationsCreateSchema (body req) = Some p ->
  checkApiAccessScope scope
    (createRefs (get p "traceId") (get p "parentObservationId")) st = false ->
  response req st = Some {| status := 403; json := accessDenied |} /\
  calls_of req st =
    [RunMiddleware; VerifyAuth (authorization req);
     SchemaParse GenerationsCreateSchema (body req);
     CheckAccess scope
       (createRefs (get p "traceId") (get p "parentObservationId"))] /\
  store_after req st = st.
Proof.
  intros Hm Ha Hp Hc. unfold response, calls_of, store_after.
  rewrite (run_post_cases req st scope Hm Ha), Hp. cbv zeta.
  rewrite Hc. repeat split.
Qed.

Lemma post_access_denied_witness :
  response (Model.post Samples.foreign_trace) Model.st0 =
    Some {| status := 403; json := accessDenied |} /\
  calls_of (Model.post Samples.foreign_trace) Model.st0 =
    [RunMiddleware; VerifyAuth (Some "Basic acme-key");
     SchemaParse GenerationsCreateSchema Samples.foreign_trace;
     CheckAccess Model.acme
       [VObj [("type", VStr "trace"); ("id", VStr "t-other")]]] /\
  store_after (Model.post Samples.foreign_trace) Model.st0 = Model.st0.
Proof.
  exact (post_access_denied (Model.post Samples.foreign_trace) Model.st0
           Model.acme Samples.foreign_trace
           eq_refl eq_refl eq_refl eq_refl).
Defined.

(** X4.  When the create call returns a record, the request is answered
    201 with that record as the body, the store is the one the call left,
    and the create call is the last and only store call. *)
Theorem post_created
  {Store : Type} {C : Collaborators Store}
  (req : Request) (st st' : Store) (scope : Scope) (p o : value) :
  method req = "POST" ->
  verifyAuthHeaderAndReturnScope (authorization req) st = ValidKey scope ->
  parse GenerationsCreateSchema (body req) = Some p ->
  checkApiAccessScope scope
    (createRefs (get p "traceId") (get p "parentObservationId")) st = true ->
  prisma_observation_create (createArgs scope p) st = (inr o, st') ->
  response req st = Some {| status := 201; json := o |} /\
  calls_of req st =
    [RunMiddleware; VerifyAuth (authorization req);
     SchemaParse GenerationsCreateSchema (body req);
     CheckAccess scope
       (createRefs (get p "traceId") (get p "parentObservationId"));
     ObservationCreate (createArgs scope p)] /\
  store_after req st = st'.
Proof.
  intros Hm Ha Hp Hc Hs. unfold response, calls_of, store_after.
  rewrite (run_post_cases req st scope Hm Ha), Hp. cbv zeta.
  rewrite Hc, Hs. repeat split.
Qed.

Lemma post_created_witness :
  exists o st',
    response (Model.post Model.answered) Model.st0 =
      Some {| status := 201; json := o |} /\
    store_after (Model.post Model.answered) Model.st0 = st' /\
    get o "name" = VStr "n".
Proof.
  eexists. eexists.
  edestruct (post_created (Model.post Model.answered) Model.st0)
    as (H1 & _ & H3);
    [reflexivity | reflexivity | reflexivity | reflexivity | reflexivity |].
  split; [exact H1|]. split; [exact H3|]. reflexivity.
Defined.

(** ** Every request *)

(** X5.  Once the middleware has handed control back, a request is
    answered with one of the five statuses 201, 400, 401, 403 and 405, with
    one exception: when the credential check of a POST request throws, the
    error is not caught (lines 68-70 are outside the [try] blocks), the
    handler ends with it and no response is sent. *)
Theorem response_status
  {Store : Type} {C : Collaborators Store}
  (req : Request) (st : Store) :
  match verifyAuthHeaderAndReturnScope (authorization req) st with
  | Rejected message =>
      if (method req =? "POST")%string
      then run req st =
           (Throw message,
            {| db := st;
               calls := [RunMiddleware; VerifyAuth (authorization req)] |})
           /\ response req st = None
      else response req st = Some methodNotAllowed
  | _ => exists r, response req st = Some r /\
                   In (status r) [201; 400; 401; 403; 405]
  end.
Proof.
  unfold response.
  destruct (String.eqb_spec (method req) "POST") as [Hm|Hm].
  - destruct (verifyAuthHeaderAndReturnScope (authorization req) st)
      as [scope|error|message] eqn:Ha.
    + rewrite (run_post_cases req st scope Hm Ha).
      destruct (parse GenerationsCreateSchema (body req)) as [p|];
        [|eexists; split; [reflexivity | simpl; auto]].
      cbv zeta.
      destruct (checkApiAccessScope scope _ st);
        [|eexists; split; [reflexivity | simpl; auto]].
      destruct (prisma_observation_create _ st) as [[e|o] st'];
        eexists; (split; [reflexivity | simpl; auto]).
    + rewrite (run_invalid_key req st error Hm Ha).
      eexists; split; [reflexivity | simpl; auto].
    + rewrite (run_rejected req st message Hm Ha). split; reflexivity.
  - rewrite (run_other_method req st Hm).
    destruct (verifyAuthHeaderAndReturnScope (authorization req) st);
      try reflexivity;
      eexists; (split; [reflexivity | simpl; auto 10]).
Qed.

(** A credential check that cannot reach its database: the POST request
    is left without a response. *)
Example credential_check_failure_uncaught :
  run (C:=Lockout.collaborators) (Model.post Model.answered)
      Lockout.unreachable
  = (Throw Lockout.failure,
     {| db := Lockout.unreachable;
        calls := [RunMiddleware; VerifyAuth (Some "Basic acme-key")] |}) /\
  response (C:=Lockout.collaborators) (Model.post Model.answered)
           Lockout.unreachable = None.
Proof.
  split; reflexivity.
Qed.

(** X6.  The calls of every request come in one order: the middleware,
    then the credential check, then the parse of the body by the create
    schema, then the access check, then the create call; a request stops
    after any of them, and skips none. *)
Theorem calls_in_order
  {Store : Type} {C : Collaborators Store}
  (req : Request) (st : Store) :
  exists (scope : Scope) (refs : list value) (args : value) (n : nat),
    calls_of req st =
    firstn n [RunMiddleware; VerifyAuth (authorization req);
              SchemaParse GenerationsCreateSchema (body req);
              CheckAccess scope refs; ObservationCreate args].
Proof.
  unfold calls_of.
  destruct (string_dec (method req) "POST") as [Hm|Hm].
  - destruct (verifyAuthHeaderAndReturnScope (authorization req) st)
      as [scope|error|message] eqn:Ha.
    + rewrite (run_post_cases req st scope Hm Ha).
      destruct (parse GenerationsCreateSchema (body req)) as [p|].
      * cbv zeta.
        exists scope,
          (createRefs (get p "traceId") (get p "parentObservationId")),
          (createArgs scope p).
        destruct (checkApiAccessScope scope _ st);
          [|exists 4%nat; reflexivity].
        destruct (prisma_observation_create _ st) as [[e|o] st'];
          exists 5%nat; reflexivity.
      * exists scope, [], VUndefined, 3%nat. reflexivity.
    + rewrite (run_invalid_key req st error Hm Ha).
      exists {| projectId := "" |}, [], VUndefined, 2%nat. reflexivity.
    + rewrite (run_rejected req st message Hm Ha).
      exists {| projectId := "" |}, [], VUndefined, 2%nat. reflexivity.
  - rewrite (run_other_method req st Hm).
    exists {| projectId := "" |}, [], VUndefined, 1%nat. reflexivity.
Qed.

(** X7.  The handler changes the store through the create call only: a
    request that made no create call leaves the store as it was, and no
    request makes an update call. *)
Theorem store_changed_only_by_create
  {Store : Type} {C : Collaborators Store}
  (req : Request) (st : Store) :
  (forall args, ~ In (ObservationCreate args) (calls_of req st)) ->
  store_after req st = st /\
  forall args, ~ In (ObservationUpdate args) (calls_of req st).
Proof.
  intros Hno. split; [|intros args; apply no_update_call].
  revert Hno. unfold calls_of, store_after.
  destruct (string_dec (method req) "POST") as [Hm|Hm].
  - destruct (verifyAuthHeaderAndReturnScope (authorization req) st)
      as [scope|error|message] eqn:Ha.
    + rewrite (run_post_cases req st scope Hm Ha).
      destruct (parse GenerationsCreateSchema (body req)) as [p|];
        [|reflexivity].
      cbv zeta.
      destruct (checkApiAccessScope scope _ st); [|reflexivity].
      destruct (prisma_observation_create _ st) as [[e|o] st'];
        cbn [snd db calls]; intros Hno; exfalso;
        apply (Hno (createArgs scope p)); apply in_or_app; right; right;
        left; reflexivity.
    + rewrite (run_invalid_key req st error Hm Ha). reflexivity.
    + rewrite (run_rejected req st message Hm Ha). reflexivity.
  - rewrite (run_other_method req st Hm). reflexivity.
Qed.

Lemma store_changed_only_by_create_witness :
  store_after (Model.post Samples.foreign_trace) Model.st0 = Model.st0 /\
  forall args,
    ~ In (ObservationUpdate args)
         (calls_of (Model.post Samples.foreign_trace) Model.st0).
Proof.
  apply (store_changed_only_by_create
           (Model.post Samples.foreign_trace) Model.st0).
  intros args H. vm_compute in H.
  repeat (destruct H as [H|H]; try discriminate H). exact H.
Defined.

(** X8.  A request of a method other than POST and PATCH is answered 405
    "Method not allowed" whatever its credential and body: the credential
    check is not called, nor anything after it. *)
Theorem unsupported_method
  {Store : Type} {C : Collaborators Store}
  (req : Request) (st : Store) :
  method req <> "POST" ->
  method req <> "PATCH" ->
  response req st = Some methodNotAllowed /\
  calls_of req st = [RunMiddleware] /\
  store_after req st = st.
Proof.
  intros Hm _. unfold response, calls_of, store_after.
  rewrite (run_other_method req st Hm). repeat split.
Qed.

Lemma unsupported_method_witness :
  response {| method := "GET"; authorization := Some "Basic acme-key";
              body := Model.answered |} Model.st0 = Some methodNotAllowed /\
  calls_of {| method := "GET"; authorization := Some "Basic acme-key";
              body := Model.answered |} Model.st0 = [RunMiddleware] /\
  store_after {| method := "GET"; authorization := Some "Basic acme-key";
                 body := Model.answered |} Model.st0 = Model.st0.
Proof.
  apply (unsupported_method
           {| method := "GET"; authorization := Some "Basic acme-key";
              body := Model.answered |} Model.st0);
    simpl; discriminate.
Defined.

(** ** The schemas *)

(** The parse of an object reads its input only at the declared keys. *)
Lemma parse_shape_agree (shape : list (string * schema)) (i1 i2 : object) :
  (forall k, In k (declared shape) -> lookup k i1 = lookup k i2) ->
  parse_shape parse shape i1 = parse_shape parse shape i2.
Proof.
  induction shape as [|[k1 s1] r IH]; intros Hag; [reflexivity|].
  cbn [parse_shape]. unfold has_key. cbn [get].
  rewrite (Hag k1) by (now left).
  rewrite IH by (intros k Hk; apply Hag; now right).
  reflexivity.
Qed.

(** X9.  The keys of a body that the create schema does not declare have
    no effect: two POST requests with the same credential whose bodies agree
    on the thirteen declared keys get the same answer and leave the same
    store. *)
Theorem undeclared_keys_ignored
  {Store : Type} {C : Collaborators Store}
  (req1 req2 : Request) (st : Store) (i1 i2 : object) :
  method req1 = method req2 ->
  authorization req1 = authorization req2 ->
  body req1 = VObj i1 ->
  body req2 = VObj i2 ->
  (forall k, In k (declared createShape) -> lookup k i1 = lookup k i2) ->
  response req1 st = response req2 st /\
  store_after req1 st = store_after req2 st.
Proof.
  intros Hm Hh Hb1 Hb2 Hag.
  assert (Hp : parse GenerationsCreateSchema (body req1)
               = parse GenerationsCreateSchema (body req2)).
  { rewrite Hb1, Hb2.
    change (parse (ZObject createShape) (VObj i1)
            = parse (ZObject createShape) (VObj i2)).
    cbn [parse]. now rewrite (parse_shape_agree createShape i1 i2 Hag). }
  unfold response, store_after.
  destruct (string_dec (method req1) "POST") as [Hm1|Hm1].
  - assert (Hm2 : method req2 = "POST") by congruence.
    destruct (verifyAuthHeaderAndReturnScope (authorization req1) st)
      as [scope|error|message] eqn:Ha1.
    + assert (Ha2 : verifyAuthHeaderAndReturnScope (authorization req2) st
                    = ValidKey scope) by (now rewrite <- Hh).
      rewrite (run_post_cases req1 st scope Hm1 Ha1),
        (run_post_cases req2 st scope Hm2 Ha2), Hp.
      destruct (parse GenerationsCreateSchema (body req2)) as [p|];
        [|split; reflexivity].
      cbv zeta.
      destruct (checkApiAccessScope scope _ st); [|split; reflexivity].
      destruct (prisma_observation_create _ st) as [[e|o] st'];
        split; reflexivity.
    + assert (Ha2 : verifyAuthHeaderAndReturnScope (authorization req2) st
                    = InvalidKey error) by (now rewrite <- Hh).
      rewrite (run_invalid_key req1 st error Hm1 Ha1),
        (run_invalid_key req2 st error Hm2 Ha2).
      split; reflexivity.
    + assert (Ha2 : verifyAuthHeaderAndReturnScope (authorization req2) st
                    = Rejected message) by (now rewrite <- Hh).
      rewrite (run_rejected req1 st message Hm1 Ha1),
        (run_rejected req2 st message Hm2 Ha2).
      split; reflexivity.
  - assert (Hm2 : method req2 <> "POST") by congruence.
    rewrite (run_other_method req1 st Hm1), (run_other_method req2 st Hm2).
    split; reflexivity.
Qed.

Lemma undeclared_keys_ignored_witness :
  response (Model.post Samples.with_extras) Model.st0 =
    response (Model.post Model.answered) Model.st0 /\
  store_after (Model.post Samples.with_extras) Model.st0 =
    store_after (Model.post Model.answered) Model.st0.
Proof.
  apply (undeclared_keys_ignored
           (Model.post Samples.with_extras) (Model.post Model.answered)
           Model.st0
           (spread Samples.with_extras) (spread Model.answered));
    try reflexivity.
  intros k Hk. simpl in Hk.
  repeat (destruct Hk as [<-|Hk]; [reflexivity|]). contradiction.
Defined.

Lemma parse_shape_stable (shape : list (string * schema)) :
  NoDup (declared shape) ->
  (forall k sk, In (k, sk) shape -> stable sk) ->
  forall input o,
    parse_shape parse shape input = Some o ->
    parse_shape parse shape o = Some o.
Proof.
  induction shape as [|[k1 s1] r IH]; intros Hnd Hst input o H.
  - simpl in H. injection H as <-. reflexivity.
  - inversion Hnd as [|? ? Hnotin Hnd']; subst.
    cbn [parse_shape] in H.
    destruct (parse s1 (get (VObj input) k1)) as [y|] eqn:E1;
      [|discriminate].
    destruct (parse_shape parse r input) as [r'|] eqn:Er; [|discriminate].
    assert (Hr : parse_shape parse r r' = Some r').
    { apply (IH Hnd' (fun k sk Hin => Hst k sk (or_intror Hin)) input r' Er). }
    assert (Hk1 : lookup k1 r' = None).
    { apply lookup_None_iff. intros Hin. apply Hnotin.
      eapply parse_shape_keys; eauto. }
    assert (Hs1 : stable s1) by (apply (Hst k1 s1); now left).
    destruct (has_key k1 input ||
              negb match y with VUndefined => true | _ => false end) eqn:Einc;
      injection H as <-.
    + cbn [parse_shape]. unfold has_key. cbn [get lookup].
      rewrite String.eqb_refl. rewrite (Hs1 _ _ E1).
      rewrite (parse_shape_agree r ((k1, y) :: r') r'), Hr; [reflexivity|].
      intros k Hk. cbn [lookup].
      destruct (String.eqb_spec k k1) as [->|]; [contradiction | reflexivity].
    + apply orb_false_iff in Einc. destruct Einc as [Hh Hy].
      assert (y = VUndefined) by (destruct y; try discriminate; reflexivity).
      subst y.
      assert (Hin0 : get (VObj input) k1 = VUndefined).
      { unfold has_key in Hh. cbn [get].
        destruct (lookup k1 input); [discriminate | reflexivity]. }
      rewrite Hin0 in E1.
      cbn [parse_shape]. unfold has_key. cbn [get]. rewrite Hk1, E1, Hr.
      reflexivity.
Qed.

Lemma stable_object (shape : list (string * schema)) :
  NoDup (declared shape) ->
  (forall k sk, In (k, sk) shape -> stable sk) ->
  stable (ZObject shape).
Proof.
  intros Hnd Hst v y H.
  destruct (parse_object_inv _ _ _ H) as (input & o & -> & -> & Hs).
  cbn [parse]. now rewrite (parse_shape_stable shape Hnd Hst input o Hs).
Qed.

Lemma stable_same (s : schema) :
  (forall v y, parse s v = Some y -> y = v) -> stable s.
Proof.
  intros Hid v y H. pose proof (Hid v y H) as E. subst y. exact H.
Qed.

Lemma stable_usage : stable usageSchema.
Proof.
  apply stable_object; [exact NoDup_usage_shape|].
  intros k sk Hin. simpl in Hin.
  repeat (destruct Hin as [Hin|Hin]; [injection Hin as <- <-|]);
    try contradiction;
    apply stable_same; intros v y H; now apply parse_nullish_number in H.
Qed.

Lemma kept_kept (es : object) : kept (kept es) = kept es.
Proof.
  unfold kept. induction es as [|[k v] r IH]; [reflexivity|].
  cbn [filter fst].
  destruct (k =? "__proto__")%string eqn:E; cbn [negb]; [exact IH|].
  cbn [filter fst]. rewrite E. cbn [negb]. now rewrite IH.
Qed.

Lemma parse_parameters_kept es es' :
  parse_record parse (ZNullish (ZUnion [ZString; ZNumber; ZBoolean])) es
  = Some es' ->
  parse_record parse (ZNullish (ZUnion [ZString; ZNumber; ZBoolean]))
    (kept es) = Some (kept es).
Proof.
  revert es'. induction es as [|[k x] r IH]; intros es' H; [reflexivity|].
  cbn [parse_record] in H.
  destruct (parse _ x) as [y|] eqn:Ex; [|discriminate].
  destruct (parse_record parse _ r) as [r'|] eqn:Er; [|discriminate].
  specialize (IH r' eq_refl).
  pose proof (parse_parameter_value _ _ Ex) as ->.
  unfold kept. cbn [filter fst]. fold (kept r).
  destruct (k =? "__proto__")%string eqn:E; cbn [negb]; [exact IH|].
  cbn [parse_record]. rewrite Ex, IH, E. reflexivity.
Qed.

Lemma stable_modelParameters : stable modelParametersSchema.
Proof.
  intros v y H. pose proof H as H0.
  apply parse_modelParameters in H0.
  destruct H0 as [[Hn ->] | (es & -> & ->)]; [exact H|].
  unfold modelParametersSchema in *. cbn [parse] in *.
  destruct (parse_record parse _ es) as [es'|] eqn:E; [|discriminate].
  now rewrite (parse_parameters_kept es es' E).
Qed.

Lemma stable_field (k : string) (sk : schema) :
  In (k, sk) createShape \/ In (k, sk) patchShape -> stable sk.
Proof.
  intros [Hin|Hin]; simpl in Hin;
    repeat (destruct Hin as [Hin|Hin]; [injection Hin as <- <-|]);
    try contradiction; try exact stable_usage;
    try exact stable_modelParameters;
    apply stable_same; intros v y H;
    first [ now apply parse_nullish_string in H
          | now apply parse_nullish_datetime in H
          | now apply parse_nullish_unknown in H
          | now apply parse_nullish_enum in H
          | (destruct v; simpl in H; try discriminate; now injection H as <-) ].
Qed.

(** X10.  What the two schemas return is in normal form: a payload that
    the create schema or the patch schema returned is accepted by that
    schema again and returned unchanged. *)
Theorem parsed_payload_stable (s : schema) (body p : value) :
  s = GenerationsCreateSchema \/ s = GenerationPatchSchema ->
  parse s body = Some p ->
  parse s p = Some p.
Proof.
  intros [->| ->] H.
  - apply (stable_object createShape NoDup_create_shape) with (v := body);
      [|exact H].
    intros k sk Hin. apply (stable_field k sk). now left.
  - apply (stable_object patchShape NoDup_patch_shape) with (v := body);
      [|exact H].
    intros k sk Hin. apply (stable_field k sk). now right.
Qed.

Lemma parsed_payload_stable_witness :
  parse GenerationsCreateSchema Samples.with_extras = Some Model.answered /\
  parse GenerationsCreateSchema Model.answered = Some Model.answered.
Proof.
  split; [reflexivity|].
  apply (parsed_payload_stable GenerationsCreateSchema Samples.with_extras);
    [left; reflexivity | reflexivity].
Defined.

(** X11.  What an accepted create payload holds: [usage] is there and is
    an object whose three counts are numbers, null or absent; [traceId],
    [name], [model], [completion], [parentObservationId] and [statusMessage]
    are strings, null or absent; [startTime] and [endTime] are date-time
    strings, null or absent. *)
Theorem create_payload_shape (body p : value) :
  parse GenerationsCreateSchema body = Some p ->
  (exists u, get body "usage" = VObj u) /\
  (forall k, In k ["promptTokens"; "completionTokens"; "totalTokens"] ->
     nullish (get (get body "usage") k) = true \/
     exists n, get (get body "usage") k = VNum n) /\
  (forall k, In k ["traceId"; "name"; "model"; "completion";
                   "parentObservationId"; "statusMessage"] ->
     nullish (get body k) = true \/ exists s, get body k = VStr s) /\
  (forall k, In k ["startTime"; "endTime"] ->
     nullish (get body k) = true \/
     exists s, get body k = VStr s /\ isDatetime s = true).
Proof.
  intros Hp.
  assert (Hu : parse usageSchema (get body "usage") = Some (get p "usage")).
  { apply (create_field _ _ _ _ Hp). simpl; auto 20. }
  repeat split.
  - destruct (parse_object_inv _ _ _ Hu) as (input & o & E & _ & _).
    eauto.
  - intros k Hk.
    destruct (usage_field_number _ _ k Hu Hk) as [E H].
    rewrite <- E. exact H.
  - intros k Hk.
    assert (H : parse (ZNullish ZString) (get body k) = Some (get p k)).
    { apply (create_field _ _ _ _ Hp). simpl in Hk. simpl.
      intuition (subst; auto 20). }
    apply parse_nullish_string in H. tauto.
  - intros k Hk.
    assert (H : parse (ZNullish ZDatetime) (get body k) = Some (get p k)).
    { apply (create_field _ _ _ _ Hp). simpl in Hk. simpl.
      intuition (subst; auto 20). }
    apply parse_nullish_datetime in H. tauto.
Qed.

Lemma create_payload_shape_witness :
  exists u, get Samples.connected "usage" = VObj u.
Proof.
  exact (proj1 (create_payload_shape Samples.connected Samples.connected
                  eq_refl)).
Defined.

(** ** Usage *)

Lemma get_spread (u : value) (k : string) :
  get (VObj (spread u)) k = get u k.
Proof. destruct u; reflexivity. Qed.

Lemma set_set (k : string) (v1 v2 : value) (o : object) :
  set k v2 (set k v1 o) = set k v2 o.
Proof.
  induction o as [|[k' v'] r IH]; simpl.
  - now rewrite String.eqb_refl.
  - destruct (String.eqb_spec k k') as [->|Hne]; simpl.
    + now rewrite String.eqb_refl.
    + destruct (String.eqb_spec k k'); [contradiction | now rewrite IH].
Qed.

(** The total that lines 113-117 compute from the three counts. *)
Lemma calculatedUsage_object (u : value) :
  truthy u = true ->
  calculatedUsage u =
  VObj (set "totalTokens"
          (if truthy (and (not (get u "totalTokens"))
                          (or (get u "promptTokens")
                              (get u "completionTokens")))
           then add (coalesce (get u "promptTokens") (VNum 0))
                    (coalesce (get u "completionTokens") (VNum 0))
           else get u "totalTokens")
          (spread u)).
Proof.
  intros Ht. unfold calculatedUsage. rewrite Ht. reflexivity.
Qed.

(** X12.  The derived usage keeps every key of the supplied usage other
    than [totalTokens] with its value: [promptTokens] and
    [completionTokens] pass through unchanged, and so does any other key. *)
Theorem calculatedUsage_keeps_other_keys (o : object) (k : string) :
  k <> "totalTokens" ->
  get (calculatedUsage (VObj o)) k = get (VObj o) k.
Proof.
  intros Hk. rewrite calculatedUsage_object by reflexivity.
  cbn [get spread]. now rewrite lookup_set_other.
Qed.

Lemma calculatedUsage_keeps_other_keys_witness :
  get (calculatedUsage Samples.counted) "promptTokens" = VNum 10 /\
  get (calculatedUsage Samples.counted) "cost" = VNum 3.
Proof.
  split.
  - apply (calculatedUsage_keeps_other_keys (spread Samples.counted)
             "promptTokens"). discriminate.
  - apply (calculatedUsage_keeps_other_keys (spread Samples.counted) "cost").
    discriminate.
Defined.

(** X13.  Deriving the usage twice is deriving it once: a total that was
    computed is kept, so a usage that went through the handler can go
    through it again unchanged. *)
Theorem calculatedUsage_idempotent (u : value) :
  calculatedUsage (calculatedUsage u) = calculatedUsage u.
Proof.
  destruct (truthy u) eqn:Ht.
  - rewrite (calculatedUsage_object u Ht).
    rewrite calculatedUsage_object by reflexivity.
    cbn [spread]. rewrite set_set. f_equal. f_equal.
    assert (Hp : forall x o, get (VObj (set "totalTokens" x o)) "promptTokens"
                             = get (VObj o) "promptTokens").
    { intros x o. cbn [get]. now rewrite lookup_set_other by discriminate. }
    assert (Hc : forall x o,
               get (VObj (set "totalTokens" x o)) "completionTokens"
               = get (VObj o) "completionTokens").
    { intros x o. cbn [get]. now rewrite lookup_set_other by discriminate. }
    assert (Htot : forall x o, get (VObj (set "totalTokens" x o)) "totalTokens"
                               = x).
    { intros x o. cbn [get]. now rewrite lookup_set_same. }
    rewrite Hp, Hc, Htot, !get_spread.
    set (t := get u "totalTokens").
    set (pc := or (get u "promptTokens") (get u "completionTokens")).
    set (sum := add _ _).
    clearbody t pc sum. unfold and, not. cbn [truthy].
    destruct (truthy t) eqn:Et; cbn [negb truthy]; rewrite ?Et;
      cbn [negb truthy]; rewrite ?Et; [reflexivity|].
    destruct (truthy pc) eqn:Epc; [|rewrite Et; cbn [negb]; now rewrite Epc].
    destruct (truthy sum) eqn:Es; cbn [negb truthy]; rewrite ?Epc;
      reflexivity.
  - unfold calculatedUsage at 2. unfold calculatedUsage at 2. rewrite Ht.
    reflexivity.
Qed.

(** ** What the create call carries *)

Lemma create_supplied (body p : value) (k : string) :
  parse GenerationsCreateSchema body = Some p ->
  In k ["traceId"; "name"; "startTime"; "endTime"; "model";
        "modelParameters"; "prompt"; "completion"; "metadata";
        "parentObservationId"; "level"; "statusMessage"] ->
  get p k = parsed_field k (get body k).
Proof.
  intros Hp Hk. simpl in Hk.
  repeat (destruct Hk as [<-|Hk]); try contradiction;
    unfold parsed_field; cbn [String.eqb Ascii.eqb Bool.eqb];
    fold (parsed_field "modelParameters" (get body "modelParameters")).
  - exact (create_traceId _ _ Hp).
  - exact (create_name _ _ Hp).
  - apply (parse_nullish_datetime (get body "startTime")).
    apply (create_field _ _ _ _ Hp); simpl; auto 20.
  - apply (parse_nullish_datetime (get body "endTime")).
    apply (create_field _ _ _ _ Hp); simpl; auto 20.
  - apply (parse_nullish_string (get body "model")).
    apply (create_field _ _ _ _ Hp); simpl; auto 20.
  - apply (parsed_modelParameters (get body "modelParameters")).
    apply (create_field _ _ _ _ Hp); simpl; auto 20.
  - exact (create_prompt _ _ Hp).
  - exact (create_completion _ _ Hp).
  - apply (parse_nullish_unknown (get body "metadata")).
    apply (create_field _ _ _ _ Hp); simpl; auto 20.
  - exact (create_parentObservationId _ _ Hp).
  - apply (parse_nullish_enum ObservationLevel (get body "level")).
    apply (create_field _ _ _ _ Hp); simpl; auto 20.
  - apply (parse_nullish_string (get body "statusMessage")).
    apply (create_field _ _ _ _ Hp); simpl; auto 20.
Qed.

Lemma createData_optional (scope : Scope) (p : value) (k : string) :
  In k ["metadata"; "model"; "modelParameters"; "level"; "statusMessage"] ->
  get (createData scope p) k = coalesce (get p k) VUndefined.
Proof.
  intros Hk. simpl in Hk. unfold createData.
  repeat (destruct Hk as [<-|Hk]); try contradiction;
    destruct (truthy (get p "traceId")); reflexivity.
Qed.

Lemma createData_fixed (scope : Scope) (p : value) :
  get (createData scope p) "type" = ObservationType_GENERATION /\
  get (createData scope p) "name" = get p "name" /\
  get (createData scope p) "startTime" =
    (if truthy (get p "startTime") then newDate (get p "startTime")
     else VUndefined) /\
  get (createData scope p) "endTime" =
    (if truthy (get p "endTime") then newDate (get p "endTime")
     else VUndefined).
Proof.
  unfold createData. destruct (truthy (get p "traceId")); repeat split.
Qed.

Lemma date_forwarded (v : value) :
  nullish v = true \/ (exists s, v = VStr s /\ isDatetime s = true) ->
  (if truthy v then newDate v else VUndefined) =
  (if nullish v then VUndefined else newDate v).
Proof.
  intros [Hn | (s & -> & Hs)].
  - rewrite Hn. destruct v; try discriminate; reflexivity.
  - destruct s; [discriminate Hs | reflexivity].
Qed.

(** X14.  In every create call of the handler: a null or absent
    [metadata], [model], [modelParameters], [level] or [statusMessage] is
    passed as unset; a supplied one is passed as it is, except that a record
    of model parameters is passed without an own key [__proto__]; [name] is
    passed as supplied, null included; [startTime] and [endTime] are passed
    as dates whenever they are supplied and as unset otherwise. *)
Theorem create_optional_fields
  {Store : Type} {C : Collaborators Store}
  (req : Request) (st : Store) (args : value) :
  In (ObservationCreate args) (calls_of req st) ->
  (forall k,
     In k ["metadata"; "model"; "modelParameters"; "level"; "statusMessage"] ->
     get (get args "data") k =
     if nullish (get (body req) k) then VUndefined
     else parsed_field k (get (body req) k)) /\
  get (get args "data") "name" = get (body req) "name" /\
  (forall k, In k ["startTime"; "endTime"] ->
     get (get args "data") k =
     if nullish (get (body req) k) then VUndefined
     else newDate (get (body req) k)).
Proof.
  intros H.
  destruct (create_call_inv req st args H)
    as (scope & p & _ & _ & Hp & _ & ->).
  unfold createArgs. cbn [get lookup String.eqb Ascii.eqb Bool.eqb].
  destruct (createData_fixed scope p) as (_ & Hname & Hstart & Hend).
  assert (Hdates : forall k, In k ["startTime"; "endTime"] ->
            nullish (get (body req) k) = true \/
            exists s, get (body req) k = VStr s /\ isDatetime s = true).
  { intros k Hk.
    assert (Hd : parse (ZNullish ZDatetime) (get (body req) k)
                 = Some (get p k)).
    { apply (create_field _ _ _ _ Hp). simpl in Hk. simpl.
      intuition (subst; auto 20). }
    apply parse_nullish_datetime in Hd. tauto. }
  repeat split.
  - intros k Hk. rewrite (createData_optional scope p k Hk).
    rewrite (create_supplied _ _ k Hp)
      by (simpl in Hk; simpl; intuition (subst; auto 20)).
    unfold coalesce. now rewrite nullish_parsed_field.
  - rewrite Hname.
    exact (create_supplied _ _ "name" Hp ltac:(simpl; auto)).
  - intros k Hk. pose proof (Hdates k Hk) as Hd.
    simpl in Hk. destruct Hk as [<-|[<-|[]]].
    + rewrite Hstart.
      rewrite (create_supplied _ _ "startTime" Hp ltac:(simpl; auto)
               : get p "startTime" = get (body req) "startTime").
      now apply date_forwarded.
    + rewrite Hend.
      rewrite (create_supplied _ _ "endTime" Hp ltac:(simpl; auto 10)
               : get p "endTime" = get (body req) "endTime").
      now apply date_forwarded.
Qed.

Lemma create_optional_fields_witness :
  get (get (createArgs Model.acme Samples.connected) "data") "model"
    = VUndefined /\
  get (get (createArgs Model.acme Samples.connected) "data") "name" = VNull /\
  get (get (createArgs Model.acme Samples.connected) "data") "startTime"
    = VDate "2023-05-01T10:00:00Z" /\
  exists args,
    In (ObservationCreate args)
       (calls_of (Model.post Samples.tuned_create) Model.st0) /\
    get (get args "data") "modelParameters"
      = VObj [("temperature", VNum 0.5)].
Proof.
  destruct (create_optional_fields (C:=Model.collaborators)
              (Model.post Samples.connected) Model.st0
              (createArgs Model.acme Samples.connected))
    as (H1 & H2 & H3).
  - vm_compute. do 4 right. left. reflexivity.
  - split; [exact (H1 "model" (or_intror (or_introl eq_refl)))|].
    split; [exact H2|].
    split; [exact (H3 "startTime" (or_introl eq_refl))|].
    eexists. split; [vm_compute; do 4 right; left; reflexivity|].
    match goal with
    | |- get (get ?a _) _ = _ =>
        destruct (create_optional_fields (C:=Model.collaborators)
                    (Model.post Samples.tuned_create) Model.st0 a)
          as (K1 & _ & _);
          [vm_compute; do 4 right; left; reflexivity|]
    end.
    exact (K1 "modelParameters"
             (or_intror (or_intror (or_introl eq_refl)))).
Defined.

(** X15.  In every create call of the handler the observation is of type
    GENERATION; it is connected to the trace of the supplied [traceId] when
    that is a non-empty string, and gets a trace created inline otherwise;
    it is connected to the parent of the supplied [parentObservationId] when
    that is a non-empty string, and has no parent otherwise. *)
Theorem create_relations
  {Store : Type} {C : Collaborators Store}
  (req : Request) (st : Store) (args : value) :
  In (ObservationCreate args) (calls_of req st) ->
  get (get args "data") "type" = VStr "GENERATION" /\
  (exists scope,
     verifyAuthHeaderAndReturnScope (authorization req) st = ValidKey scope /\
     get (get args "data") "trace" =
     if truthy (get (body req) "traceId")
     then VObj [("connect", VObj [("id", get (body req) "traceId")])]
     else VObj [("create",
                 VObj [("name", get (body req) "name");
                       ("project",
                        VObj [("connect",
                               VObj [("id", VStr (projectId scope))])])])]) /\
  get (get args "data") "parent" =
    (if truthy (get (body req) "parentObservationId")
     then VObj [("connect",
                 VObj [("id", get (body req) "parentObservationId")])]
     else VUndefined).
Proof.
  intros H.
  destruct (create_call_inv req st args H)
    as (scope & p & _ & Ha & Hp & _ & ->).
  unfold createArgs. cbn [get lookup String.eqb Ascii.eqb Bool.eqb].
  rewrite createData_trace, createData_parent.
  rewrite (create_traceId _ _ Hp), (create_name _ _ Hp),
    (create_parentObservationId _ _ Hp).
  split; [exact (proj1 (createData_fixed scope p))|].
  split; [exists scope; split; [exact Ha | reflexivity] | reflexivity].
Qed.

Lemma create_relations_witness :
  get (get (createArgs Model.acme Samples.connected) "data") "trace"
    = VObj [("connect", VObj [("id", VStr "t-acme")])] /\
  get (get (createArgs Model.acme Samples.connected) "data") "parent"
    = VObj [("connect", VObj [("id", VStr "g-acme")])].
Proof.
  destruct (create_relations (Model.post Samples.connected) Model.st0
              (createArgs Model.acme Samples.connected))
    as (_ & (scope & Hs & H2) & H3).
  - vm_compute. do 4 right. left. reflexivity.
  - split; [exact H2 | exact H3].
Defined.

(** X16.  The access check of a request is made with the scope of the
    credential the request presented, and on the references of the body: the
    trace of [traceId] when that is a non-empty string, then the observation
    of [parentObservationId] when that is a non-empty string, and nothing
    else. *)
Theorem access_check_references
  {Store : Type} {C : Collaborators Store}
  (req : Request) (st : Store) (scope : Scope) (refs : list value) :
  In (CheckAccess scope refs) (calls_of req st) ->
  verifyAuthHeaderAndReturnScope (authorization req) st = ValidKey scope /\
  refs =
    ((if truthy (get (body req) "traceId")
      then [VObj [("type", VStr "trace"); ("id", get (body req) "traceId")]]
      else []) ++
     (if truthy (get (body req) "parentObservationId")
      then [VObj [("type", VStr "observation");
                  ("id", get (body req) "parentObservationId")]]
      else []))%list.
Proof.
  unfold calls_of. intros H.
  destruct (string_dec (method req) "POST") as [Hm|Hm].
  - destruct (verifyAuthHeaderAndReturnScope (authorization req) st)
      as [scope'|error|message] eqn:Ha.
    + rewrite (run_post_cases req st scope' Hm Ha) in H.
      destruct (parse GenerationsCreateSchema (body req)) as [p|] eqn:Hp.
      * cbv zeta in H.
        assert (Hin : In (CheckAccess scope refs)
                         [RunMiddleware; VerifyAuth (authorization req);
                          SchemaParse GenerationsCreateSchema (body req);
                          CheckAccess scope'
                            (createRefs (get p "traceId")
                                        (get p "parentObservationId"))]).
        { destruct (checkApiAccessScope scope' _ st);
            [destruct (prisma_observation_create _ st) as [[e|o] st']|];
            cbn [snd calls] in H; unfold parsedCalls in H;
            cbn [app In] in H; cbn [In];
            repeat (destruct H as [H|H]; try discriminate H; auto 10);
            contradiction. }
        cbn [In] in Hin.
        repeat (destruct Hin as [Hin|Hin]; try discriminate Hin);
          try contradiction.
        injection Hin as <- <-.
        rewrite (create_traceId _ _ Hp), (create_parentObservationId _ _ Hp).
        split; reflexivity.
      * cbn [snd calls] in H. unfold parsedCalls in H. cbn [In] in H.
        repeat (destruct H as [H|H]; try discriminate H). contradiction.
    + rewrite (run_invalid_key req st error Hm Ha) in H.
      cbn [snd calls In] in H.
      repeat (destruct H as [H|H]; try discriminate H). contradiction.
    + rewrite (run_rejected req st message Hm Ha) in H.
      cbn [snd calls In] in H.
      repeat (destruct H as [H|H]; try discriminate H). contradiction.
  - rewrite (run_other_method req st Hm) in H. cbn [snd calls In] in H.
    repeat (destruct H as [H|H]; try discriminate H). contradiction.
Qed.

Lemma access_check_references_witness :
  In (CheckAccess Model.acme
        [VObj [("type", VStr "trace"); ("id", VStr "t-acme")];
         VObj [("type", VStr "observation"); ("id", VStr "g-acme")]])
     (calls_of (Model.post Samples.connected) Model.st0) /\
  Model.resolveScope (Some "Basic acme-key") Model.st0 = ValidKey Model.acme.
Proof.
  assert (Hin : In (CheckAccess Model.acme
                      [VObj [("type", VStr "trace"); ("id", VStr "t-acme")];
                       VObj [("type", VStr "observation");
                             ("id", VStr "g-acme")]])
                   (calls_of (Model.post Samples.connected) Model.st0)).
  { vm_compute. do 3 right. left. reflexivity. }
  split; [exact Hin|].
  exact (proj1 (access_check_references
                  (Model.post Samples.connected) Model.st0 Model.acme _ Hin)).
Defined.

(** ** The store behind a create call that names its trace *)

(** An access check that passes has found the trace in the project of the
    scope. *)
Lemma checkAccess_trace (scope : Scope) (traceId parent : value)
  (st : Model.Store) :
  Model.checkAccess scope (createRefs traceId parent) st = true ->
  truthy traceId = true ->
  Model.trace_project st traceId = Some (VStr (projectId scope)).
Proof.
  unfold Model.checkAccess, createRefs. intros Hc Ht. rewrite Ht in Hc.
  cbn [app forallb] in Hc. apply andb_prop in Hc. destruct Hc as [Hc _].
  unfold Model.owner in Hc.
  cbn [get lookup String.eqb Ascii.eqb Bool.eqb] in Hc.
  destruct (Model.trace_project st traceId) as [pid|]; [|discriminate].
  unfold Model.same_id in Hc. destruct pid; try discriminate.
  apply String.eqb_eq in Hc. now subst.
Qed.

(** The model of [create] on the data of a payload that names its trace. *)
Lemma create_connect_trace (scope : Scope) (p : value) (st : Model.Store) :
  truthy (get p "traceId") = true ->
  Model.find_row (get p "traceId") (Model.traces st) <> None ->
  (truthy (get p "parentObservationId") = true ->
   Model.find_row (get p "parentObservationId") (Model.observations st)
   <> None) ->
  Model.create (createArgs scope p) st =
  let o := Model.new_observation (Model.observations st)
             (get p "traceId")
             (if truthy (get p "parentObservationId")
              then get p "parentObservationId" else VNull)
             (createData scope p) in
  (inr (VObj o),
   {| Model.traces := Model.traces st;
      Model.observations := (Model.observations st ++ [o])%list;
      Model.credentials := Model.credentials st |}).
Proof.
  intros Ht Htrace Hparent. unfold Model.create, createArgs.
  cbn [get lookup String.eqb Ascii.eqb Bool.eqb].
  fold (get (createData scope p) "trace").
  fold (get (createData scope p) "parent").
  rewrite createData_trace, createData_parent, Ht.
  unfold carries. cbn [get lookup String.eqb Ascii.eqb Bool.eqb].
  destruct (Model.find_row (get p "traceId") (Model.traces st)) eqn:Et;
    [|exfalso; now apply Htrace].
  destruct (truthy (get p "parentObservationId")).
  - cbn [nullish negb andb get lookup String.eqb Ascii.eqb Bool.eqb].
    destruct (Model.find_row _ (Model.observations st)) eqn:E;
      [|exfalso; now apply Hparent].
    reflexivity.
  - reflexivity.
Qed.

(** X17.  A create request that names its trace, with a valid credential,
    a valid payload and a passing access check, is answered 201; no trace is
    created; the created observation references the named trace, which is a
    trace of the project of the caller's scope, and has the named parent
    when there is one. *)
Theorem create_with_traceId_connects
  (req : Request) (st : Model.Store) (scope : Scope) (p : value) :
  method req = "POST" ->
  Model.resolveScope (authorization req) st = ValidKey scope ->
  parse GenerationsCreateSchema (body req) = Some p ->
  truthy (get (body req) "traceId") = true ->
  Model.checkAccess scope
    (createRefs (get (body req) "traceId")
                (get (body req) "parentObservationId")) st = true ->
  exists o : object,
    response req st = Some {| status := 201; json := VObj o |} /\
    Model.traces (store_after req st) = Model.traces st /\
    Model.observations (store_after req st) =
      (Model.observations st ++ [o])%list /\
    get (VObj o) "traceId" = get (body req) "traceId" /\
    Model.trace_project st (get (body req) "traceId") =
      Some (VStr (projectId scope)) /\
    get (VObj o) "parentObservationId" =
      (if truthy (get (body req) "parentObservationId")
       then get (body req) "parentObservationId" else VNull).
Proof.
  intros Hm Ha Hp Ht Hc.
  pose proof (create_traceId _ _ Hp) as Etrace.
  pose proof (create_parentObservationId _ _ Hp) as Eparent.
  pose proof (checkAccess_trace scope _ _ st Hc Ht) as Hproject.
  assert (Hcreate := create_connect_trace scope p st).
  rewrite Etrace, Eparent in Hcreate. specialize (Hcreate Ht).
  assert (Hfound : Model.find_row (get (body req) "traceId") (Model.traces st)
                   <> None).
  { unfold Model.trace_project in Hproject.
    destruct (Model.find_row _ (Model.traces st)); [discriminate|].
    discriminate Hproject. }
  specialize (Hcreate Hfound
                (checkAccess_parent scope _ _ st Hc)).
  cbv zeta in Hcreate.
  eexists. unfold response, store_after.
  rewrite (run_post_cases (C:=Model.collaborators) req st scope Hm Ha), Hp.
  cbv zeta. rewrite Etrace, Eparent.
  change (checkApiAccessScope scope
            (createRefs (get (body req) "traceId")
                        (get (body req) "parentObservationId")) st)
    with (Model.checkAccess scope
            (createRefs (get (body req) "traceId")
                        (get (body req) "parentObservationId")) st).
  rewrite Hc.
  change (prisma_observation_create (createArgs scope p) st)
    with (Model.create (createArgs scope p) st).
  rewrite Hcreate. cbn [fst snd db calls Model.traces Model.observations].
  repeat split. exact Hproject.
Qed.

Lemma create_with_traceId_connects_witness :
  exists o : object,
    response (Model.post Samples.connected) Model.st0 =
      Some {| status := 201; json := VObj o |} /\
    Model.traces (store_after (Model.post Samples.connected) Model.st0) =
      Model.traces Model.st0 /\
    get (VObj o) "traceId" = VStr "t-acme" /\
    get (VObj o) "parentObservationId" = VStr "g-acme".
Proof.
  destruct (create_with_traceId_connects
              (Model.post Samples.connected) Model.st0 Model.acme
              Samples.connected eq_refl eq_refl eq_refl eq_refl eq_refl)
    as (o & H1 & H2 & _ & H4 & _ & H6).
  exists o. repeat split; assumption.
Defined.

(** ** The PATCH block *)

Lemma patch_generationId (body p : value) :
  parse GenerationPatchSchema body = Some p ->
  get p "generationId" = get body "generationId" /\
  exists id, get body "generationId" = VStr id.
Proof.
  intros Hp.
  assert (H : parse ZString (get body "generationId")
              = Some (get p "generationId")).
  { apply (patch_field _ _ _ _ Hp). simpl; auto. }
  destruct (get body "generationId"); simpl in H; try discriminate.
  injection H as <-. eauto.
Qed.

(** X18.  The PATCH block updates the record it checked: in every update
    call the id of the record to update is the [generationId] of the body, a
    string, and the update call comes after an access check, which passed,
    on the observation of that id with the scope given. *)
Theorem patch_updates_checked_record
  {Store : Type} {C : Collaborators Store}
  (scope : Scope) (body : value) (st : Store) (args : value) :
  In (ObservationUpdate args) (patch_calls scope body st) ->
  exists id : string,
    get body "generationId" = VStr id /\
    get (get args "where") "id" = VStr id /\
    checkApiAccessScope scope
      [VObj [("type", VStr "observation"); ("id", VStr id)]] st = true /\
    patch_calls scope body st =
      [SchemaParse GenerationPatchSchema body;
       CheckAccess scope
         [VObj [("type", VStr "observation"); ("id", VStr id)]];
       ObservationUpdate args].
Proof.
  intros H.
  destruct (patch_update_call scope body st args H) as (p & Hp & Hc & ->).
  destruct (patch_generationId _ _ Hp) as [Eg [id Hid]].
  exists id. split; [exact Hid|].
  unfold patchRef in Hc. rewrite Eg, Hid in Hc.
  split; [unfold updateArgs; cbn [get lookup String.eqb Ascii.eqb Bool.eqb];
          now rewrite Eg|].
  split; [exact Hc|].
  unfold patch_calls. rewrite patchBranch_run, Hp. unfold patchRef, logged.
  cbn [db calls app]. rewrite Eg, Hid, Hc.
  destruct (prisma_observation_update _ st) as [[e|o] st']; reflexivity.
Qed.

Lemma patch_updates_checked_record_witness :
  exists args id,
    In (ObservationUpdate args)
       (patch_calls Model.acme Model.name_foo Model.st0) /\
    get Model.name_foo "generationId" = VStr id /\
    get (get args "where") "id" = VStr id.
Proof.
  eexists.
  edestruct (patch_updates_checked_record
               Model.acme Model.name_foo Model.st0)
    as (id & H1 & H2 & _ & _).
  - vm_compute. do 2 right. left. reflexivity.
  - exists id. split; [|split; [exact H1 | exact H2]].
    vm_compute. do 2 right. left. reflexivity.
Defined.

(** X19.  When the access check on the generation fails, the PATCH block
    answers 403 "Access denied", makes no update call and leaves the store as
    it was. *)
Theorem patch_access_denied
  {Store : Type} {C : Collaborators Store}
  (scope : Scope) (body p : value) (st : Store) :
  parse GenerationPatchSchema body = Some p ->
  checkApiAccessScope scope
    [VObj [("type", VStr "observation"); ("id", get body "generationId")]]
    st = false ->
  patchBlock scope body st =
  (Sent {| status := 403; json := accessDenied |},
   {| db := st;
      calls := [SchemaParse GenerationPatchSchema body;
                CheckAccess scope
                  [VObj [("type", VStr "observation");
                         ("id", get body "generationId")]]] |}).
Proof.
  intros Hp Hc. unfold patchBlock, try_catch.
  rewrite patchBranch_run, Hp. unfold patchRef, logged.
  cbn [db calls app]. rewrite (proj1 (patch_generationId _ _ Hp)), Hc.
  reflexivity.
Qed.

Lemma patch_access_denied_witness :
  patchBlock Model.acme Model.theirs Model.st0 =
  (Sent {| status := 403; json := accessDenied |},
   {| db := Model.st0;
      calls := [SchemaParse GenerationPatchSchema Model.theirs;
                CheckAccess Model.acme
                  [VObj [("type", VStr "observation");
                         ("id", VStr "g-other")]]] |}).
Proof.
  exact (patch_access_denied Model.acme Model.theirs Model.theirs Model.st0
           eq_refl eq_refl).
Defined.

(** X20.  A patch body without a string [generationId], or without an
    object [usage], is rejected by the schema: the PATCH block answers 400
    "Invalid request data" and calls neither the access check nor the
    store. *)
Theorem patch_invalid_payload
  {Store : Type} {C : Collaborators Store}
  (scope : Scope) (body : value) (st : Store) :
  (forall id, get body "generationId" <> VStr id) \/
  (forall u, get body "usage" <> VObj u) ->
  patchBlock scope body st =
  (Sent {| status := 400; json := invalidRequest ZodError |},
   {| db := st; calls := [SchemaParse GenerationPatchSchema body] |}).
Proof.
  intros Hbad.
  assert (Hp : parse GenerationPatchSchema body = None).
  { destruct (parse GenerationPatchSchema body) as [p|] eqn:Hp;
      [exfalso|reflexivity].
    destruct Hbad as [Hid | Hu].
    - destruct (patch_generationId _ _ Hp) as [_ [id E]]. exact (Hid id E).
    - assert (H : parse usageSchema (get body "usage")
                  = Some (get p "usage")).
      { apply (patch_field _ _ _ _ Hp). simpl; auto 20. }
      destruct (parse_object_inv _ _ _ H) as (input & o & E & _ & _).
      exact (Hu input E). }
  unfold patchBlock, try_catch. rewrite patchBranch_run, Hp. reflexivity.
Qed.

Lemma patch_invalid_payload_witness :
  patchBlock Model.acme Samples.no_generationId Model.st0 =
  (Sent {| status := 400; json := invalidRequest ZodError |},
   {| db := Model.st0;
      calls := [SchemaParse GenerationPatchSchema Samples.no_generationId] |}).
Proof.
  apply (patch_invalid_payload Model.acme Samples.no_generationId Model.st0).
  left. intros id. simpl. discriminate.
Defined.

(** X21.  When the update call of the persistence client throws, for a
    record that is not there as for any other reason, the PATCH block answers
    400 "Invalid request data" with the message of the thrown error. *)
Theorem patch_store_failure
  {Store : Type} {C : Collaborators Store}
  (scope : Scope) (body p : value) (st st' : Store) (message : string) :
  parse GenerationPatchSchema body = Some p ->
  checkApiAccessScope scope [patchRef p] st = true ->
  prisma_observation_update (updateArgs p) st = (inl message, st') ->
  patchBlock scope body st =
  (Sent {| status := 400; json := invalidRequest message |},
   {| db := st';
      calls := [SchemaParse GenerationPatchSchema body;
                CheckAccess scope [patchRef p];
                ObservationUpdate (updateArgs p)] |}).
Proof.
  intros Hp Hc Hs. unfold patchBlock, try_catch.
  rewrite patchBranch_run, Hp. cbn [db calls app]. rewrite Hc, Hs.
  reflexivity.
Qed.

Lemma patch_store_failure_witness :
  fst (patchBlock Model.acme Model.name_foo Outage.down) =
  Sent {| status := 400; json := invalidRequest Outage.refused |}.
Proof.
  rewrite (patch_store_failure (C:=Outage.collaborators)
             Model.acme Model.name_foo Model.name_foo
             Outage.down Outage.down Outage.refused
             eq_refl eq_refl eq_refl).
  reflexivity.
Defined.

(** ** The record after a patch *)

Lemma find_row_same_id (id : value) (rows : list object) (row : object) :
  Model.find_row id rows = Some row ->
  Model.same_id (get (VObj row) "id") id = true.
Proof.
  unfold Model.find_row. intros H. apply find_some in H. tauto.
Qed.

Lemma find_row_replaced (id : value) (row' : object) (rows : list object)
  (row : object) :
  Model.find_row id rows = Some row ->
  Model.same_id (get (VObj row') "id") id = true ->
  Model.find_row id
    (map (fun r => if Model.same_id (get (VObj r) "id") id then row' else r)
         rows) = Some row'.
Proof.
  unfold Model.find_row. intros Hf Hid. revert Hf.
  induction rows as [|r rs IH]; cbn [find map]; [discriminate|].
  destruct (Model.same_id (get (VObj r) "id") id) eqn:E.
  - intros _. now rewrite Hid.
  - rewrite E. exact IH.
Qed.

Lemma access_checked_record (scope : Scope) (id : value) (st : Model.Store) :
  Model.checkAccess scope
    [VObj [("type", VStr "observation"); ("id", id)]] st = true ->
  exists row, Model.find_row id (Model.observations st) = Some row.
Proof.
  unfold Model.checkAccess, Model.owner. cbn [forallb get lookup String.eqb
    Ascii.eqb Bool.eqb].
  destruct (Model.find_row id (Model.observations st)) as [row|];
    [eauto | discriminate].
Qed.

(** X24.  The PATCH block on the store of the specification.  For a body
    the patch schema accepts and a generation the access check passes, the
    block answers 201 with the record as the store then holds it, and leaves
    the traces as they were.  In that record each of name, model,
    modelParameters, metadata, level and statusMessage has the supplied value
    when that is neither null nor absent and the stored value otherwise, and
    every column other than these and endTime, input, output and usage, the
    id, the trace, the parent and the type among them, has the stored
    value. *)
Theorem patch_block_stores
  (scope : Scope) (body p : value) (st : Model.Store) :
  parse GenerationPatchSchema body = Some p ->
  Model.checkAccess scope [patchRef p] st = true ->
  exists row row',
    Model.find_row (get body "generationId") (Model.observations st)
      = Some row /\
    fst (patchBlock scope body st)
      = Sent {| status := 201; json := VObj row' |} /\
    Model.find_row (get body "generationId")
      (Model.observations (db (snd (patchBlock scope body st)))) = Some row' /\
    Model.traces (db (snd (patchBlock scope body st))) = Model.traces st /\
    (forall k, In k elided ->
       get (VObj row') k =
       if nullish (get body k) then get (VObj row) k
       else parsed_field k (get body k)) /\
    (forall k, ~ In k (["endTime"; "input"; "output"; "usage"] ++ elided) ->
       get (VObj row') k = get (VObj row) k).
Proof.
  intros Hp Hc.
  destruct (patch_generationId _ _ Hp) as [Hid _].
  destruct (access_checked_record scope _ st Hc) as [row Hrow].
  pose proof (patch_NoDup _ _ Hp) as Hnd.
  assert (Hl : forall k,
             lookup k (Model.patched (updateArgs p) row) =
             match lookup k (spread (patchData p)) with
             | Some VUndefined | None => lookup k row
             | Some v => Some v
             end).
  { intros k. apply lookup_patched. rewrite updateArgs_data.
    apply NoDup_patchData. }
  assert (Hother : forall k,
             ~ In k (["endTime"; "input"; "output"; "usage"] ++ elided) ->
             get (VObj (Model.patched (updateArgs p) row)) k
             = get (VObj row) k).
  { intros k Hk. cbn [get]. rewrite Hl.
    rewrite (lookup_patchData _ _ Hnd), (lookup_elidedFields _ _ Hnd).
    assert (Hcf : lookup k (contentFields p) = None).
    { apply lookup_None_iff. intros Hin. apply Hk. apply in_or_app. left.
      exact Hin. }
    rewrite Hcf.
    destruct (existsb (String.eqb k) taken) eqn:Et.
    - destruct (lookup k (spread p)); reflexivity.
    - rewrite (patch_undeclared body p k Hp);
        [reflexivity|].
      intros Hin. simpl in Hin.
      repeat (destruct Hin as [<-|Hin]); try contradiction;
        try discriminate Et;
        apply Hk; simpl; auto 20. }
  exists row, (Model.patched (updateArgs p) row).
  unfold patchBlock, try_catch. rewrite patchBranch_run, Hp.
  cbn [db calls app checkApiAccessScope prisma_observation_update
       Model.collaborators].
  rewrite Hc. unfold Model.update.
  cbn [updateArgs get lookup String.eqb Ascii.eqb Bool.eqb].
  fold (updateArgs p). rewrite Hrow. cbn [fst snd db Model.observations
    Model.traces].
  rewrite <- Hid.
  repeat split.
  - exact Hrow.
  - apply (find_row_replaced _ _ _ row Hrow).
    rewrite Hother by (simpl; intuition discriminate).
    exact (find_row_same_id _ _ _ Hrow).
  - intros k Hk. cbn [get]. rewrite Hl.
    rewrite (patchData_elided body p k Hp Hk).
    destruct (nullish (get body k)) eqn:En; [reflexivity|].
    rewrite <- (nullish_parsed_field k) in En.
    destruct (parsed_field k (get body k)); try reflexivity.
    discriminate En.
  - exact Hother.
Qed.

Lemma patch_block_stores_witness :
  exists row',
    fst (patchBlock Model.acme Model.name_foo Model.st0)
      = Sent {| status := 201; json := VObj row' |} /\
    Model.find_row (VStr "g-acme")
      (Model.observations
         (db (snd (patchBlock Model.acme Model.name_foo Model.st0))))
      = Some row' /\
    get (VObj row') "name" = VStr "foo" /\
    get (VObj row') "traceId" = VStr "t-acme".
Proof.
  destruct (patch_block_stores Model.acme Model.name_foo Model.name_foo
              Model.st0 eq_refl eq_refl)
    as (row & row' & Hrow & H1 & H2 & _ & H4 & H5).
  exists row'. split; [exact H1|]. split; [exact H2|].
  injection Hrow as <-. split.
  - exact (H4 "name" ltac:(simpl; auto)).
  - rewrite (H5 "traceId") by (simpl; intuition discriminate). reflexivity.
Defined.
